(** * Gapminder dashboard: the five Dash callbacks of [dash-app.py]

    The program loads one table ([gapminder]) at import time and registers
    five callbacks.  Each callback reads the module-level table, filters or
    aggregates it with pandas and hands the result to plotly express or to
    the Dash HTML components.

    The embedding follows the source call by call:
    - the table is a list of typed rows, in file order;
    - the pandas operations used by the callbacks ([head], column
      selection, comparison masks, boolean indexing, [to_dict("records")],
      [corr]) are functions of module [pd];
    - the plotly express constructors are functions of module [px] that
      check the column names and marker sizes they are given and build a
      chart descriptor;
    - a callback is a computation in a state-and-exception monad over the
      module-level globals.

    Numbers of dtype float64 are binary64 floats (the primitive floats of
    the prover), combined by the operations of the source in the order of
    the source; an int64 becomes the nearest float when pandas converts a
    column. *)

From Stdlib Require Import ZArith Lia Floats.
From stdpp Require Import base list strings pretty.

Set Warnings "-register-all".

(** ** Data model *)

(** A cell of the table: a Python [str], [int] or [float]. *)
Inductive Cell : Type :=
| CStr (s : string)
| CInt (n : Z)
| CFloat (x : float).

(** One row of the table. *)
Record Row : Type := mkRow {
  country : string;
  year : Z;
  pop : Z;
  continent : string;
  lifeExp : float;
  gdpPercap : float
}.

(** [pd.DataFrame], rows in file order. *)
Abbreviation DataFrame := (list Row).

(** Modelled from the spec: the header line of the CSV file read at
    [dash-app.py:11] is not part of the sources; the spec (External
    interfaces) gives the columns as country, year, pop, continent,
    lifeExp, gdpPercap.  This is [gapminder.columns]. *)
Definition columns : list string :=
  ["country"; "year"; "pop"; "continent"; "lifeExp"; "gdpPercap"].

(** The value a row holds under a column label; [None] for a label that
    is not a column. *)
Definition column (c : string) (r : Row) : option Cell :=
  if decide (c = "country") then Some (CStr (country r))
  else if decide (c = "year") then Some (CInt (year r))
  else if decide (c = "pop") then Some (CInt (pop r))
  else if decide (c = "continent") then Some (CStr (continent r))
  else if decide (c = "lifeExp") then Some (CFloat (lifeExp r))
  else if decide (c = "gdpPercap") then Some (CFloat (gdpPercap r))
  else None.

Definition is_column (c : string) : bool := bool_decide (c ∈ columns).

(** Python exceptions raised by the library calls of the callbacks. *)
Inductive Exn : Type :=
| KeyError (key : string)
| ValueError (msg : string).

Inductive Result (A : Type) : Type :=
| Ok (a : A)
| Raise (e : Exn).
Arguments Ok {A} a.
Arguments Raise {A} e.

Definition result_bind {A B} (m : Result A) (k : A → Result B) : Result B :=
  match m with
  | Ok a => k a
  | Raise e => Raise e
  end.

(** Floats are compared as values here: one not-a-number, two zeros.
    The comparison of the language is [PrimFloat.eqb]. *)
#[global] Instance float_eq_dec : EqDecision float.
Proof.
  intros x y. destruct (PrimFloat.Leibniz.eqb x y) eqn:E.
  - left. by apply FloatAxioms.Leibniz.eqb_spec.
  - right. intros H. apply FloatAxioms.Leibniz.eqb_spec in H. congruence.
Defined.
#[global] Instance Cell_eq_dec : EqDecision Cell.
Proof. solve_decision. Defined.

(** An [int64] converted to [float64]: the nearest float, ties to even. *)
Definition float_of_int (n : Z) : float :=
  SF2Prim (binary_normalize prec emax n 0 false).

(** [a == b] on two scalars: strings and integers by value, floats by the
    comparison of floats, an integer against a float after conversion. *)
Definition cell_eqb (a b : Cell) : bool :=
  match a, b with
  | CStr s, CStr t => bool_decide (s = t)
  | CInt m, CInt n => bool_decide (m = n)
  | CFloat x, CFloat y => (x =? y)%float
  | CInt m, CFloat y => (float_of_int m =? y)%float
  | CFloat x, CInt n => (x =? float_of_int n)%float
  | _, _ => false
  end.

(** A Python [dict] with [str] keys: insertion-ordered, one entry per key. *)
Abbreviation Dict V := (list (string * V)).

(** [d[k] = v]: overwrite in place when the key exists, append otherwise. *)
Fixpoint dict_set {V} (k : string) (v : V) (d : Dict V) : Dict V :=
  match d with
  | [] => [(k, v)]
  | (k', v') :: d' =>
      if decide (k = k') then (k, v) :: d' else (k', v') :: dict_set k v d'
  end.

(** [dict(pairs)] *)
Definition dict_of {V} (pairs : list (string * V)) : Dict V :=
  foldl (λ d kv, dict_set kv.1 kv.2 d) [] pairs.

(** [d.values()] *)
Definition dict_values {V} (d : Dict V) : list V := d.*2.

(** [d.keys()] *)
Definition dict_keys {V} (d : Dict V) : list string := d.*1.

(** [range(start, stop, step)] for a positive step; [fuel] bounds the
    number of elements. *)
Fixpoint range_from (fuel : nat) (start stop step : Z) : list Z :=
  match fuel with
  | O => []
  | S fuel' =>
      if (start <? stop)%Z
      then start :: range_from fuel' (start + step) stop step
      else []
  end.

Definition py_range (start stop step : Z) : list Z :=
  range_from (Z.to_nat (stop - start)) start stop step.

(** ** Correlation of numeric columns *)

(** A frame of numeric columns, as selected by [df[[c1, ..., cK]]] and
    converted by [to_numpy(dtype=float)]: labels and one value list per
    row. *)
Record NumFrame : Type := mkNumFrame {
  nf_columns : list string;
  nf_mat : list (list float)
}.

(** The frame returned by [corr]: index and columns carry the same
    labels. *)
Record CorrFrame : Type := mkCorrFrame {
  cf_labels : list string;
  cf_values : list (list float)
}.

(** The running sums of one column pair in pandas' [nancorr]. *)
Record Acc : Type := mkAcc {
  nobs : Z;
  ssqdm_x : float;
  ssqdm_y : float;
  covxy : float;
  meanx : float;
  meany : float
}.

Module corr.

Definition acc0 : Acc := mkAcc 0 0 0 0 0 0.

(** One observation [(vx, vy)] of the inner loop (Welford update):
    [nobs += 1; dx = vx - meanx; dy = vy - meany;
     meanx += 1. / nobs * dx; meany += 1. / nobs * dy;
     ssqdm_x += (vx - meanx) * dx; ssqdm_y += (vy - meany) * dy;
     covxy += (vx - meanx) * dy]. *)
Definition step (a : Acc) (vx vy : float) : Acc :=
  let n := (nobs a + 1)%Z in
  let dx := (vx - meanx a)%float in
  let dy := (vy - meany a)%float in
  let mx := (meanx a + 1 / float_of_int n * dx)%float in
  let my := (meany a + 1 / float_of_int n * dy)%float in
  {| nobs := n;
     ssqdm_x := ssqdm_x a + (vx - mx) * dx;
     ssqdm_y := ssqdm_y a + (vy - my) * dy;
     covxy := covxy a + (vx - mx) * dy;
     meanx := mx;
     meany := my |}.

(** [if mask[i, xi] and mask[i, yi]: ...] with [mask = np.isfinite(mat)]. *)
Definition observe (a : Acc) (vx vy : float) : Acc :=
  if is_finite vx && is_finite vy then step a vx vy else a.

(** The loop over the rows for the column pair [(xi, yi)]. *)
Definition stats (mat : list (list float)) (xi yi : nat) : Acc :=
  foldl (λ a row, observe a (nth xi row nan) (nth yi row nan)) acc0 mat.

(** The entry computed from the sums: not-a-number below [minpv]
    observations or for a zero divisor ([divisor != 0] is false). *)
Definition value (minpv : Z) (a : Acc) : float :=
  if (nobs a <? minpv)%Z then nan
  else
    let divisor := sqrt (ssqdm_x a * ssqdm_y a) in
    if negb (divisor =? 0)%float then (covxy a / divisor)%float else nan.

(** [result[i, j] = v] *)
Definition setitem (result : list (list float)) (i j : nat) (v : float)
    : list (list float) :=
  alter (<[j := v]>) i result.

(** [np.empty((K, K))]: the content is unspecified; every entry is
    written by [fill] before it is read (see [fill_lookup]). *)
Definition np_empty (K : nat) : list (list float) :=
  replicate K (replicate K 0%float).

(** The body of the inner loop: both mirror entries receive the value. *)
Definition assign (mat : list (list float)) (minpv : Z) (xi : nat)
    (result : list (list float)) (yi : nat) : list (list float) :=
  let v := value minpv (stats mat xi yi) in
  setitem (setitem result xi yi v) yi xi v.

(** [for xi in range(K): for yi in range(xi + 1): ...] *)
Definition fill (result0 : list (list float)) (K : nat)
    (mat : list (list float)) (minpv : Z) : list (list float) :=
  foldl (λ result xi, foldl (assign mat minpv xi) result (seq 0 (S xi)))
        result0 (seq 0 K).

(** [nancorr(mat, minp=minp)] *)
Definition nancorr (K : nat) (mat : list (list float)) (minp : Z)
    : list (list float) :=
  fill (np_empty K) K mat minp.

End corr.

(** ** pandas *)

Module pd.

(** Stop index of the slice [[:n]] over a sequence of length [len]. *)
Definition slice_stop (n : Z) (len : nat) : nat :=
  if (n <? 0)%Z then Z.to_nat (Z.of_nat len + n) else Z.to_nat n.

(** [df.head(n)], that is [df.iloc[:n]]. *)
Definition head (n : Z) (df : DataFrame) : DataFrame :=
  take (slice_stop n (length df)) df.

(** [df[c]]: the cells of one column, [KeyError] for an unknown label. *)
Definition getitem (df : DataFrame) (c : string) : Result (list Cell) :=
  if is_column c then Ok (omap (column c) df) else Raise (KeyError c).

(** [series == v]: element-wise comparison. *)
Definition eq (s : list Cell) (v : Cell) : list bool :=
  (λ x, cell_eqb x v) <$> s.

(** [df[mask]]: the rows whose mask entry is [True], in frame order. *)
Fixpoint getitem_mask (df : DataFrame) (mask : list bool) : DataFrame :=
  match df, mask with
  | r :: df', b :: mask' =>
      if b then r :: getitem_mask df' mask' else getitem_mask df' mask'
  | _, _ => []
  end.

(** The scan of [series.unique()]: a value is kept when it is not among
    those seen so far. *)
Fixpoint unique_from `{EqDecision A} (seen : list A) (s : list A) : list A :=
  match s with
  | [] => []
  | v :: s' =>
      if decide (v ∈ seen) then unique_from seen s'
      else v :: unique_from (v :: seen) s'
  end.

(** [series.unique()]: distinct values in order of first appearance. *)
Definition unique `{EqDecision A} (s : list A) : list A := unique_from [] s.

(** The value tuple of one row, column by column ([itertuples]). *)
Definition itertuple (r : Row) : list Cell := omap (λ c, column c r) columns.

(** [df.to_dict("records")]: one dict per row, keyed by column label. *)
Definition to_dict_records (df : DataFrame) : list (Dict Cell) :=
  (λ r, dict_of (zip columns (itertuple r))) <$> df.

(** [float(cell)] as [to_numpy(dtype=float)] applies it. *)
Definition to_float (c : Cell) : Result float :=
  match c with
  | CInt n => Ok (float_of_int n)
  | CFloat x => Ok x
  | CStr s => Raise (ValueError ("could not convert string to float: " +:+ s))
  end.

(** All results of a list, or the first exception. *)
Fixpoint sequence {A} (l : list (Result A)) : Result (list A) :=
  match l with
  | [] => Ok []
  | r :: l' =>
      result_bind r (λ a, result_bind (sequence l') (λ as_, Ok (a :: as_)))
  end.

(** [df[[c1, ..., cK]]] followed by the conversion to floats. *)
Definition getitem_list (df : DataFrame) (cols : list string) : Result NumFrame :=
  match filter (λ c, ¬ c ∈ columns) cols with
  | c :: _ => Raise (KeyError c)
  | [] =>
      result_bind
        (sequence ((λ r, sequence (to_float <$> omap (λ c, column c r) cols)) <$> df))
        (λ mat, Ok (mkNumFrame cols mat))
  end.

(** [frame.corr()]: Pearson, [min_periods=1]. *)
Definition corr (f : NumFrame) : CorrFrame :=
  mkCorrFrame (nf_columns f)
              (corr.nancorr (length (nf_columns f)) (nf_mat f) 1).

End pd.

(** ** Dash HTML components *)

Inductive Component : Type :=
| Div (children : list Component)
| Table (children : list Component) (style : Dict string)
| Thead (child : Component)
| Tbody (children : list Component)
| Tr (children : list Component)
| Th (child : string)
| Td (child : Cell).

(** ** Module-level state and the callback monad *)

(** The globals of the module: [url] and [gapminder]. *)
Record World : Type := mkWorld {
  url : string;
  gapminder : DataFrame
}.

(** A computation that may read and write the globals and may raise. *)
Definition App (A : Type) : Type := World → Result A * World.

#[global] Instance App_ret : MRet App := λ A a w, (Ok a, w).
#[global] Instance App_bind : MBind App := λ A B k m w,
  match m w with
  | (Ok a, w') => k a w'
  | (Raise e, w') => (Raise e, w')
  end.

#[global] Instance App_fmap : FMap App := λ A B f m w,
  match m w with
  | (Ok a, w') => (Ok (f a), w')
  | (Raise e, w') => (Raise e, w')
  end.

(** Reading the global [gapminder]. *)
Definition read_gapminder : App DataFrame := λ w, (Ok (gapminder w), w).

(** A library call that returns or raises, without touching the globals. *)
Definition call {A} (r : Result A) : App A := λ w, (r, w).

(** ** plotly express *)

Inductive ColorScale : Type := Plasma.

(** The chart descriptors built by the plotly express calls. *)
Inductive Figure : Type :=
| ScatterFig (data_frame : DataFrame)
    (x y color size hover_name title : string)
| LineFig (data_frame : DataFrame) (x y title : string) (markers : bool)
| ChoroplethFig (data_frame : DataFrame)
    (locations locationmode color hover_name title : string)
    (color_continuous_scale : ColorScale)
| ImshowFig (img : CorrFrame) (text_auto : bool) (labels : Dict string)
    (title : string).

Module px.

(** Every column argument must name a column of the frame. *)
Definition check_columns (args : list string) : Result unit :=
  match filter (λ c, ¬ c ∈ columns) args with
  | c :: _ => Raise (ValueError c)
  | [] => Ok ()
  end.

(** A marker size must be a number that is not negative. *)
Definition valid_size (c : Cell) : bool :=
  match c with
  | CInt n => (0 <=? n)%Z
  | CFloat v => (0 <=? v)%float
  | CStr _ => false
  end.

(** The values of the size column are the marker sizes of the chart. *)
Definition check_sizes (df : DataFrame) (size : string) : Result unit :=
  if forallb valid_size (omap (column size) df) then Ok ()
  else Raise (ValueError "Invalid element(s) received for the 'size' property of scatter.marker").

Definition scatter (df : DataFrame) (x y color size hover_name title : string)
    : Result Figure :=
  result_bind (check_columns [x; y; color; size; hover_name])
    (λ _, result_bind (check_sizes df size)
       (λ _, Ok (ScatterFig df x y color size hover_name title))).

Definition line (df : DataFrame) (x y title : string) (markers : bool)
    : Result Figure :=
  result_bind (check_columns [x; y]) (λ _, Ok (LineFig df x y title markers)).

Definition choropleth (df : DataFrame)
    (locations locationmode color hover_name title : string)
    (scale : ColorScale) : Result Figure :=
  result_bind (check_columns [locations; color; hover_name])
    (λ _, Ok (ChoroplethFig df locations locationmode color hover_name title scale)).

Definition imshow (img : CorrFrame) (text_auto : bool) (labels : Dict string)
    (title : string) : Result Figure :=
  Ok (ImshowFig img text_auto labels title).

End px.

(** The rows a chart draws; a heatmap draws a matrix, not rows. *)
Definition fig_rows (f : Figure) : DataFrame :=
  match f with
  | ScatterFig df _ _ _ _ _ _ => df
  | LineFig df _ _ _ _ => df
  | ChoroplethFig df _ _ _ _ _ _ => df
  | ImshowFig _ _ _ _ => []
  end.

(** The [(x, y)] pairs of some rows, in the order of the rows. *)
Definition row_points (x y : string) (df : DataFrame) : list (Cell * Cell) :=
  omap (λ r, vx ← column x r; vy ← column y r; Some (vx, vy)) df.

(** The columns of strings: a colour taken from one of them is discrete. *)
Definition discrete_columns : list string := ["country"; "continent"].

(** The traces of a scatter or line chart.  A scatter chart coloured by a
    column of strings has one trace per value of that column, in the order
    in which the values first appear, each with its rows in table order;
    otherwise there is one trace with all rows. *)
Definition fig_traces (f : Figure) : list (list (Cell * Cell)) :=
  match f with
  | ScatterFig df x y color _ _ _ =>
      if bool_decide (color ∈ discrete_columns)
      then (λ k, row_points x y (filter (λ r, column color r = Some k) df))
             <$> pd.unique (omap (column color) df)
      else [row_points x y df]
  | LineFig df x y _ _ => [row_points x y df]
  | _ => []
  end.

(** The points of a scatter or line chart, trace after trace. *)
Definition fig_points (f : Figure) : list (Cell * Cell) := mjoin (fig_traces f).

(** ** The five callbacks *)

Definition table_style : Dict string :=
  dict_of [("width", "100%"); ("border", "1px solid black");
           ("border-collapse", "collapse")].

(** [update_table], dash-app.py:109-119. *)
Definition update_table (rows : Z) : App Component :=
  df ← read_gapminder;
  let preview := pd.to_dict_records (pd.head rows df) in
  mret (Div [
    Table [
      Thead (Tr (Th <$> columns));
      Tbody ((λ row, Tr (Td <$> dict_values row)) <$> preview)
    ] table_style
  ]).

(** [update_scatterplot], dash-app.py:127-137. *)
Definition update_scatterplot (x_col y_col : string) : App Figure :=
  df ← read_gapminder;
  call (px.scatter df x_col y_col "continent" "pop" "country"
          ("Scatterplot of " +:+ y_col +:+ " vs " +:+ x_col)).

(** [update_trend_chart], dash-app.py:144-153. *)
Definition update_trend_chart (selected_country : string) : App Figure :=
  df ← read_gapminder;
  col ← call (pd.getitem df "country");
  let country_data := pd.getitem_mask df (pd.eq col (CStr selected_country)) in
  call (px.line country_data "year" "lifeExp"
          ("Life Expectancy Over Time for " +:+ selected_country) true).

(** [update_map_chart], dash-app.py:161-172. *)
Definition update_map_chart (selected_year : Z) (variable : string) : App Figure :=
  df ← read_gapminder;
  col ← call (pd.getitem df "year");
  let year_data := pd.getitem_mask df (pd.eq col (CInt selected_year)) in
  call (px.choropleth year_data "country" "country names" variable "country"
          (variable +:+ " in " +:+ pretty selected_year) Plasma).

(** [update_correlation_matrix], dash-app.py:179-188. *)
Definition update_correlation_matrix (selected_continent : string) : App Figure :=
  df ← read_gapminder;
  col ← call (pd.getitem df "continent");
  let continent_data := pd.getitem_mask df (pd.eq col (CStr selected_continent)) in
  sub ← call (pd.getitem_list continent_data ["gdpPercap"; "lifeExp"; "pop"]);
  let correlation_matrix := pd.corr sub in
  call (px.imshow correlation_matrix true (dict_of [("color", "Correlation")])
          ("Correlation Matrix for " +:+ selected_continent)).

(** ** The callback registry *)

(** What a callback returns: a component tree or a figure. *)
Inductive ChartSpec : Type :=
| OutComponent (c : Component)
| OutFigure (f : Figure).

(** One firing of a registered callback with the current widget values. *)
Inductive Call : Type :=
| CallTable (rows : Z)
| CallScatterplot (x_col y_col : string)
| CallTrend (selected_country : string)
| CallMap (selected_year : Z) (variable : string)
| CallCorrelation (selected_continent : string).

Definition dispatch (c : Call) : App ChartSpec :=
  match c with
  | CallTable rows => OutComponent <$> update_table rows
  | CallScatterplot x y => OutFigure <$> update_scatterplot x y
  | CallTrend c => OutFigure <$> update_trend_chart c
  | CallMap yr v => OutFigure <$> update_map_chart yr v
  | CallCorrelation c => OutFigure <$> update_correlation_matrix c
  end.

(** The server handles the calls one after the other; an exception in a
    callback fails that output only and the next call runs in the state
    the failed one left. *)
Fixpoint serve (calls : list Call) (w : World) : list (Result ChartSpec) * World :=
  match calls with
  | [] => ([], w)
  | c :: calls' =>
      let (r, w') := dispatch c w in
      let (rs, w'') := serve calls' w' in
      (r :: rs, w'')
  end.

(** ** Widget domains of the layout *)

(** The row slider of the layout, dash-app.py:25-32. *)
Definition row_slider_min : Z := 5.
Definition row_slider_max : Z := 50.
Definition row_slider_step : Z := 5.
Definition row_slider_marks : list Z := py_range 5 55 5.

(** Options of the axis and variable dropdowns, dash-app.py:40, 47, 78-82. *)
Definition numeric_fields : list string := ["gdpPercap"; "lifeExp"; "pop"].

(** Options of the country dropdown, dash-app.py:58. *)
Definition country_options (df : DataFrame) : list string :=
  pd.unique (country <$> df).

(** Marks of the year slider, dash-app.py:73. *)
Definition year_marks (df : DataFrame) : list Z := pd.unique (year <$> df).

(** Options of the continent dropdown, dash-app.py:93. *)
Definition continent_options (df : DataFrame) : list string :=
  pd.unique (continent <$> df).

(** A value the row slider can take: between [min] and [max], on the
    [step] grid that starts at [min]. *)
Definition row_slider_valid (N : Z) : Prop :=
  (row_slider_min ≤ N ≤ row_slider_max)%Z
  ∧ ((N - row_slider_min) `mod` row_slider_step = 0)%Z.

(** ** Vocabulary of the properties *)

(** The rows of a frame follow each other in the order [rel] of their
    years. *)
Definition year_ordered (rel : Z → Z → Prop) (rows : DataFrame) : Prop :=
  ∀ i j ri rj, i < j → rows !! i = Some ri → rows !! j = Some rj →
    rel (year ri) (year rj).

(** The same, required only between rows of one country. *)
Definition year_ordered_per_country (rel : Z → Z → Prop) (df : DataFrame) : Prop :=
  ∀ i j ri rj, i < j → df !! i = Some ri → df !! j = Some rj →
    country ri = country rj → rel (year ri) (year rj).

(** Number of records of a frame for one year. *)
Fixpoint count_year (yr : Z) (df : DataFrame) : nat :=
  match df with
  | [] => 0
  | r :: df' => (if (year r =? yr)%Z then 1 else 0) + count_year yr df'
  end.

(** Entry [(i, j)] of a correlation frame. *)
Definition entry (m : list (list float)) (i j : nat) : option float :=
  row ← m !! i; row !! j.

(** A [K] by [K] matrix. *)
Definition shape (K : nat) (m : list (list float)) : Prop :=
  length m = K ∧ Forall (λ row, length row = K) m.

(** The three numeric values of a row, in the order of the selection
    [["gdpPercap", "lifeExp", "pop"]]. *)
Definition numeric_row (r : Row) : list float :=
  [gdpPercap r; lifeExp r; float_of_int (pop r)].


(** A computation leaves the globals as it found them. *)
Definition frame {A} (m : App A) : Prop := ∀ w, (m w).2 = w.

(** The result of a computation depends on the globals through
    [gapminder] only. *)
Definition dataset_only {A} (m : App A) : Prop :=
  ∀ w1 w2, gapminder w1 = gapminder w2 → (m w1).1 = (m w2).1.

(** The value that [corr.fill] leaves in cell [(i, j)]: the one computed
    for the pair (larger index, smaller index). *)
Definition fill_cell (mat : list (list float)) (minpv : Z) (i j : nat) : float :=
  corr.value minpv (corr.stats mat (i `max` j) (i `min` j)).

(** ** The year slider of the layout *)

(** [series.min()] of an integer column; not-a-number ([None]) for an
    empty column. *)
Definition series_min (s : list Z) : option Z :=
  match s with
  | [] => None
  | v :: s' => Some (foldl Z.min v s')
  end.

(** [series.max()] of an integer column; not-a-number ([None]) for an
    empty column. *)
Definition series_max (s : list Z) : option Z :=
  match s with
  | [] => None
  | v :: s' => Some (foldl Z.max v s')
  end.

(** [int(v)]: [ValueError] for not-a-number. *)
Definition py_int (v : option Z) : Result Z :=
  match v with
  | Some n => Ok n
  | None => Raise (ValueError "cannot convert float NaN to integer")
  end.

(** [min=int(gapminder['year'].min())], dash-app.py:69. *)
Definition year_slider_min (df : DataFrame) : Result Z :=
  py_int (series_min (year <$> df)).

(** [max=int(gapminder['year'].max())], dash-app.py:70. *)
Definition year_slider_max (df : DataFrame) : Result Z :=
  py_int (series_max (year <$> df)).

(** ** Further vocabulary *)

(** The rows drawn by the figure a callback returned; none when it
    raised. *)
Definition chart_rows (r : Result Figure) : DataFrame :=
  match r with
  | Ok fig => fig_rows fig
  | Raise _ => []
  end.


(** ** Sample tables *)

(** A table in the order of the published file: by country, then year. *)
Definition sample_world : World := mkWorld "gapminder-FiveYearData.csv" [
  mkRow "Afghanistan" 1952 8425333 "Asia" 29 779;
  mkRow "Afghanistan" 1957 9240934 "Asia" 30 821;
  mkRow "Albania" 1952 1282697 "Europe" 55 1601;
  mkRow "Albania" 1957 1476505 "Europe" 59 1942;
  mkRow "Algeria" 1952 9279525 "Africa" 43 2449;
  mkRow "Bahrain" 1952 120447 "Asia" 51 9867
].

(** A table whose rows for one country are not in year order. *)
Definition unsorted_world : World := mkWorld "gapminder-FiveYearData.csv" [
  mkRow "Chad" 2007 10238807 "Africa" 51 1704;
  mkRow "Chad" 2002 8835739 "Africa" 50 1156
].


(** A table whose African rows have no life expectancy. *)
Definition missing_world : World := mkWorld "gapminder-FiveYearData.csv" [
  mkRow "Chad" 2002 8835739 "Africa" nan 1156;
  mkRow "Chad" 2007 10238807 "Africa" nan 1704;
  mkRow "Bahrain" 2007 708573 "Asia" 75 29796
].

(** A table with a negative population. *)
Definition negative_pop_world : World := mkWorld "gapminder-FiveYearData.csv" [
  mkRow "Chad" 2002 8835739 "Africa" 50 1156;
  mkRow "Chad" 2007 (-1) "Africa" 51 1704
].

(** ** Facts about the pandas operations *)

Section Masks.
Context {A : Type} `{EqDecision A}.
Variables (c : string) (inj : A → Cell) (f : Row → A).
Hypothesis inj_eqb : ∀ a b, cell_eqb (inj a) (inj b) = bool_decide (a = b).
Hypothesis column_c : ∀ r, column c r = Some (inj (f r)).

(** Selecting a column keeps one cell per row. *)
Lemma omap_column (df : DataFrame) : omap (column c) df = (λ r, inj (f r)) <$> df.
Proof.
  induction df as [|r df IH]; [done|].
  cbn. rewrite column_c. cbn. by rewrite IH.
Qed.

(** Comparing a column with a value and indexing by the mask is
    filtering the rows on that field. *)
Lemma getitem_mask_eq (df : DataFrame) (v : A) :
  pd.getitem_mask df (pd.eq (omap (column c) df) (inj v))
  = filter (λ r, f r = v) df.
Proof.
  rewrite omap_column. unfold pd.eq.
  induction df as [|r df IH]; [done|].
  cbn [fmap list_fmap pd.getitem_mask]. rewrite inj_eqb, filter_cons.
  destruct (decide (f r = v)) as [Heq|Hne].
  - rewrite bool_decide_eq_true_2 by done. by rewrite <- IH.
  - by rewrite bool_decide_eq_false_2.
Qed.

End Masks.

Lemma mask_country (df : DataFrame) (v : string) :
  pd.getitem_mask df (pd.eq (omap (column "country") df) (CStr v))
  = filter (λ r, country r = v) df.
Proof. by apply (getitem_mask_eq "country" CStr country). Qed.

Lemma mask_year (df : DataFrame) (v : Z) :
  pd.getitem_mask df (pd.eq (omap (column "year") df) (CInt v))
  = filter (λ r, year r = v) df.
Proof. by apply (getitem_mask_eq "year" CInt year). Qed.

Lemma mask_continent (df : DataFrame) (v : string) :
  pd.getitem_mask df (pd.eq (omap (column "continent") df) (CStr v))
  = filter (λ r, continent r = v) df.
Proof. by apply (getitem_mask_eq "continent" CStr continent). Qed.

(** [unique] lists every value of the column, each once. *)
Lemma elem_of_unique_from `{EqDecision A} (seen s : list A) (x : A) :
  x ∈ pd.unique_from seen s ↔ x ∈ s ∧ x ∉ seen.
Proof.
  revert seen. induction s as [|v s IH]; intros seen; cbn.
  - rewrite elem_of_nil. tauto.
  - destruct (decide (v ∈ seen)) as [Hv|Hv].
    + rewrite IH, elem_of_cons. split; [tauto|].
      intros [[->|Hx] Hn]; [done | tauto].
    + rewrite !elem_of_cons, IH, not_elem_of_cons.
      destruct (decide (x = v)) as [->|Hne]; tauto.
Qed.

Lemma NoDup_unique_from `{EqDecision A} (seen s : list A) :
  NoDup (pd.unique_from seen s).
Proof.
  revert seen. induction s as [|v s IH]; intros seen; cbn; [constructor|].
  destruct (decide (v ∈ seen)); [apply IH|].
  constructor; [|apply IH].
  rewrite elem_of_unique_from, not_elem_of_cons. tauto.
Qed.

Lemma elem_of_unique `{EqDecision A} (s : list A) (x : A) :
  x ∈ pd.unique s ↔ x ∈ s.
Proof.
  unfold pd.unique. rewrite elem_of_unique_from.
  pose proof (not_elem_of_nil x). tauto.
Qed.

Lemma NoDup_unique `{EqDecision A} (s : list A) : NoDup (pd.unique s).
Proof. apply NoDup_unique_from. Qed.

(** ** What each callback computes *)

Lemma is_column_elem (c : string) : c ∈ columns → is_column c = true.
Proof. intros H. by apply bool_decide_eq_true_2. Qed.

Lemma getitem_ok (df : DataFrame) (c : string) :
  c ∈ columns → pd.getitem df c = Ok (omap (column c) df).
Proof. intros H. unfold pd.getitem. by rewrite is_column_elem. Qed.

Lemma check_columns_ok (args : list string) :
  Forall (λ c, c ∈ columns) args → px.check_columns args = Ok ().
Proof.
  intros H. unfold px.check_columns.
  assert (filter (λ c, ¬ c ∈ columns) args = []) as ->; [|done].
  induction H as [|c args Hc _ IH]; [done|].
  rewrite filter_cons. by destruct (decide _).
Qed.

Lemma columns_elems :
  "country" ∈ columns ∧ "year" ∈ columns ∧ "pop" ∈ columns
  ∧ "continent" ∈ columns ∧ "lifeExp" ∈ columns ∧ "gdpPercap" ∈ columns.
Proof. repeat split; by apply (bool_decide_unpack _). Qed.

(** Column arguments that are literal labels or known columns. *)
Ltac known_columns :=
  rewrite ?Forall_cons, ?Forall_nil;
  repeat split; first [assumption | by apply (bool_decide_unpack _)].

Lemma update_trend_chart_run (c : string) (w : World) :
  update_trend_chart c w
  = (Ok (LineFig (filter (λ r, country r = c) (gapminder w)) "year" "lifeExp"
               ("Life Expectancy Over Time for " +:+ c) true), w).
Proof.
  unfold update_trend_chart, mbind, App_bind, read_gapminder, call.
  rewrite getitem_ok by apply columns_elems.
  rewrite mask_country. unfold px.line.
  rewrite check_columns_ok; [done|].
  known_columns.
Qed.

Lemma update_map_chart_run (yr : Z) (v : string) (w : World) :
  v ∈ columns →
  update_map_chart yr v w
  = (Ok (ChoroplethFig (filter (λ r, year r = yr) (gapminder w))
           "country" "country names" v "country"
           (v +:+ " in " +:+ pretty yr) Plasma), w).
Proof.
  intros Hv.
  unfold update_map_chart, mbind, App_bind, read_gapminder, call.
  rewrite getitem_ok by apply columns_elems.
  rewrite mask_year. unfold px.choropleth.
  rewrite check_columns_ok; [done|].
  known_columns.
Qed.

(** The marker sizes of the scatterplot are the populations: they pass the
    check exactly when none is negative. *)
Lemma check_sizes_pop (df : DataFrame) :
  px.check_sizes df "pop" = Ok () ↔ Forall (λ r, (0 ≤ pop r)%Z) df.
Proof.
  unfold px.check_sizes.
  assert (forallb px.valid_size (omap (column "pop") df) = true
          ↔ Forall (λ r, (0 ≤ pop r)%Z) df) as Hall.
  { induction df as [|r df IH]; [by split|].
    change (omap (column "pop") (r :: df))
      with (CInt (pop r) :: omap (column "pop") df).
    cbn [forallb px.valid_size]. rewrite andb_true_iff, IH, Forall_cons.
    by rewrite Z.leb_le. }
  destruct (forallb _ _); split; try done.
  - intros _. by apply Hall.
  - intros H. by apply Hall in H.
Qed.

Lemma update_scatterplot_run (x y : string) (w : World) :
  x ∈ columns → y ∈ columns → Forall (λ r, (0 ≤ pop r)%Z) (gapminder w) →
  update_scatterplot x y w
  = (Ok (ScatterFig (gapminder w) x y "continent" "pop" "country"
           ("Scatterplot of " +:+ y +:+ " vs " +:+ x)), w).
Proof.
  intros Hx Hy Hpop.
  unfold update_scatterplot, mbind, App_bind, read_gapminder, call.
  unfold px.scatter.
  rewrite check_columns_ok by known_columns.
  by rewrite (proj2 (check_sizes_pop _) Hpop).
Qed.

(** With a negative population the plotting call rejects the marker
    sizes. *)
Lemma update_scatterplot_raise_size (x y : string) (w : World) :
  x ∈ columns → y ∈ columns → ¬ Forall (λ r, (0 ≤ pop r)%Z) (gapminder w) →
  ∃ msg, update_scatterplot x y w = (Raise (ValueError msg), w).
Proof.
  intros Hx Hy Hpop.
  unfold update_scatterplot, mbind, App_bind, read_gapminder, call.
  unfold px.scatter.
  rewrite check_columns_ok by known_columns.
  pose proof (check_sizes_pop (gapminder w)) as Hs.
  unfold px.check_sizes in *.
  destruct (forallb _ _); [exfalso; by apply Hpop, Hs|].
  by eexists.
Qed.

Lemma update_table_run (rows : Z) (w : World) :
  update_table rows w
  = (Ok (Div [Table [Thead (Tr (Th <$> columns));
                     Tbody ((λ row, Tr (Td <$> dict_values row))
                              <$> pd.to_dict_records (pd.head rows (gapminder w)))]
                table_style]), w).
Proof. reflexivity. Qed.

(** ** Dictionaries built from distinct keys *)

Lemma dict_set_fresh {V} (k : string) (v : V) (d : Dict V) :
  k ∉ d.*1 → dict_set k v d = d ++ [(k, v)].
Proof.
  induction d as [|[k' v'] d IH]; intros Hk; [done|].
  cbn in *. apply not_elem_of_cons in Hk as [Hne Hk].
  destruct (decide (k = k')); [done|]. by rewrite IH.
Qed.

Lemma dict_of_app {V} (acc : Dict V) (ks : list string) (vs : list V) :
  NoDup ks → (∀ k, k ∈ ks → k ∉ acc.*1) →
  foldl (λ d kv, dict_set kv.1 kv.2 d) acc (zip ks vs) = acc ++ zip ks vs.
Proof.
  revert acc vs. induction ks as [|k ks IH]; intros acc vs Hnd Hfresh.
  - cbn. by rewrite app_nil_r.
  - destruct vs as [|v vs]; [cbn; by rewrite app_nil_r|].
    apply NoDup_cons in Hnd as [Hk Hnd]. cbn.
    rewrite dict_set_fresh by (apply Hfresh; left).
    rewrite IH; [by rewrite <- app_assoc | done |].
    intros k' Hk'. rewrite fmap_app, elem_of_app. intros [Hin|Hin].
    + by apply (Hfresh k'); [right|].
    + cbn in Hin. apply list_elem_of_singleton in Hin. by subst.
Qed.

(** With distinct keys [dict(zip(keys, values))] lists the pairs as given. *)
Lemma dict_of_zip {V} (ks : list string) (vs : list V) :
  NoDup ks → dict_of (zip ks vs) = zip ks vs.
Proof.
  intros Hnd. unfold dict_of. rewrite dict_of_app; [done | done |].
  intros k _. cbn. apply not_elem_of_nil.
Qed.

Lemma columns_NoDup : NoDup columns.
Proof. by apply (bool_decide_unpack _). Qed.

Lemma itertuple_cells (r : Row) :
  pd.itertuple r = [CStr (country r); CInt (year r); CInt (pop r);
                    CStr (continent r); CFloat (lifeExp r); CFloat (gdpPercap r)].
Proof. reflexivity. Qed.

(** The dict of a record lists the row's values in column order. *)
Lemma record_values (r : Row) :
  dict_values (dict_of (zip columns (pd.itertuple r))) = pd.itertuple r.
Proof.
  rewrite dict_of_zip by apply columns_NoDup.
  unfold dict_values. by apply snd_zip.
Qed.

Lemma record_keys (r : Row) :
  dict_keys (dict_of (zip columns (pd.itertuple r))) = columns.
Proof.
  rewrite dict_of_zip by apply columns_NoDup.
  unfold dict_keys. by apply fst_zip.
Qed.

(** The body rows of the preview: one tuple per row of the head. *)
Lemma preview_body (rows : Z) (df : DataFrame) :
  (λ row, Tr (Td <$> dict_values row)) <$> pd.to_dict_records (pd.head rows df)
  = (λ cells, Tr (Td <$> cells)) <$> (pd.itertuple <$> pd.head rows df).
Proof.
  unfold pd.to_dict_records. rewrite <- !list_fmap_compose.
  apply list_fmap_ext. intros _ r _. unfold compose. by rewrite record_values.
Qed.

Lemma head_nonneg (n : Z) (df : DataFrame) :
  (0 ≤ n)%Z → pd.head n df = take (Z.to_nat n) df.
Proof.
  intros Hn. unfold pd.head, pd.slice_stop.
  by destruct (Z.ltb_spec n 0); [lia|].
Qed.

Lemma row_slider_valid_marks (N : Z) : row_slider_valid N ↔ N ∈ row_slider_marks.
Proof.
  unfold row_slider_valid, row_slider_min, row_slider_max, row_slider_step.
  change row_slider_marks with [5; 10; 15; 20; 25; 30; 35; 40; 45; 50]%Z.
  rewrite !elem_of_cons, elem_of_nil. split.
  - intros [Hr Hm]. apply Z.mod_divide in Hm as [k Hk]; lia.
  - intros H. repeat destruct H as [->|H]; try done.
Qed.

Lemma numeric_fields_columns (c : string) : c ∈ numeric_fields → c ∈ columns.
Proof.
  unfold numeric_fields, columns. rewrite !elem_of_cons, !elem_of_nil. tauto.
Qed.

Lemma column_is_Some (c : string) (r : Row) : c ∈ columns → is_Some (column c r).
Proof.
  unfold columns. rewrite !elem_of_cons, elem_of_nil.
  intros [->|[->|[->|[->|[->|[->|[]]]]]]]; by eexists.
Qed.

(** [omap] with a function that never fails is a map. *)
Lemma omap_total_lookup {A B} (f : A → option B) (l : list A) (i : nat) :
  (∀ x, is_Some (f x)) → omap f l !! i = l !! i ≫= f.
Proof.
  intros Hf. revert i. induction l as [|a l IH]; intros i; [done|].
  cbn. destruct (Hf a) as [b Hb]. rewrite Hb.
  destruct i as [|i]; cbn; [done | apply IH].
Qed.

Lemma omap_total_length {A B} (f : A → option B) (l : list A) :
  (∀ x, is_Some (f x)) → length (omap f l) = length l.
Proof.
  intros Hf. induction l as [|a l IH]; [done|].
  cbn. destruct (Hf a) as [b ->]. cbn. by rewrite IH.
Qed.

(** ** The data preview *)

(** C1: for every row count [N] the slider can take, the preview is a table
    whose header row lists the column names of the table and whose body
    has exactly [min N (number of rows)] rows: body row [i] holds the six
    values of record [i] of the table (country, year, pop, continent,
    lifeExp, gdpPercap), so the body is the front of the table in table
    order. *)
Theorem update_table_preview_rows (w : World) (N : Z) :
  row_slider_valid N →
  ∃ body : list (list Cell),
    update_table N w
    = (Ok (Div [Table [Thead (Tr (Th <$> ["country"; "year"; "pop"; "continent";
                                           "lifeExp"; "gdpPercap"]));
                       Tbody ((λ cells, Tr (Td <$> cells)) <$> body)]
                  table_style]), w)
    ∧ length body = Z.to_nat N `min` length (gapminder w)
    ∧ body = (λ r, [CStr (country r); CInt (year r); CInt (pop r);
                    CStr (continent r); CFloat (lifeExp r); CFloat (gdpPercap r)])
             <$> take (Z.to_nat N) (gapminder w)
    ∧ ∀ i, i < length body →
        ∃ r, gapminder w !! i = Some r
             ∧ body !! i = Some [CStr (country r); CInt (year r); CInt (pop r);
                                 CStr (continent r); CFloat (lifeExp r);
                                 CFloat (gdpPercap r)].
Proof.
  intros [[Hmin _] _]. unfold row_slider_min in Hmin.
  exists (pd.itertuple <$> pd.head N (gapminder w)).
  rewrite update_table_run, preview_body, head_nonneg by lia.
  split; [done|]. rewrite length_fmap, length_take.
  split; [done|]. split; [done|].
  intros i Hi.
  destruct (gapminder w !! i) as [r|] eqn:Hr;
    [|apply lookup_ge_None in Hr; lia].
  exists r. split; [done|].
  rewrite list_lookup_fmap, lookup_take_lt, Hr; [done | lia].
Qed.

Lemma update_table_preview_rows_witness :
  row_slider_valid 10
  ∧ ∃ body : list (list Cell),
      update_table 10 sample_world
      = (Ok (Div [Table [Thead (Tr (Th <$> columns));
                         Tbody ((λ cells, Tr (Td <$> cells)) <$> body)]
                    table_style]), sample_world)
      ∧ length body = 6
      ∧ body = (λ r, [CStr (country r); CInt (year r); CInt (pop r);
                      CStr (continent r); CFloat (lifeExp r); CFloat (gdpPercap r)])
               <$> take 10 (gapminder sample_world)
      ∧ ∀ i, i < length body →
          ∃ r, gapminder sample_world !! i = Some r
               ∧ body !! i = Some [CStr (country r); CInt (year r); CInt (pop r);
                                   CStr (continent r); CFloat (lifeExp r);
                                   CFloat (gdpPercap r)].
Proof.
  assert (row_slider_valid 10) as H10.
  { unfold row_slider_valid, row_slider_min, row_slider_max, row_slider_step.
    split; [lia | reflexivity]. }
  split; [exact H10|].
  exact (update_table_preview_rows sample_world 10 H10).
Defined.

(** Ten rows of a table of six: all six, under the six column names. *)
Example update_table_ten_rows :
  update_table 10 sample_world
  = (Ok (Div [Table [
       Thead (Tr [Th "country"; Th "year"; Th "pop"; Th "continent";
                  Th "lifeExp"; Th "gdpPercap"]);
       Tbody [
         Tr [Td (CStr "Afghanistan"); Td (CInt 1952); Td (CInt 8425333);
             Td (CStr "Asia"); Td (CFloat 29); Td (CFloat 779)];
         Tr [Td (CStr "Afghanistan"); Td (CInt 1957); Td (CInt 9240934);
             Td (CStr "Asia"); Td (CFloat 30); Td (CFloat 821)];
         Tr [Td (CStr "Albania"); Td (CInt 1952); Td (CInt 1282697);
             Td (CStr "Europe"); Td (CFloat 55); Td (CFloat 1601)];
         Tr [Td (CStr "Albania"); Td (CInt 1957); Td (CInt 1476505);
             Td (CStr "Europe"); Td (CFloat 59); Td (CFloat 1942)];
         Tr [Td (CStr "Algeria"); Td (CInt 1952); Td (CInt 9279525);
             Td (CStr "Africa"); Td (CFloat 43); Td (CFloat 2449)];
         Tr [Td (CStr "Bahrain"); Td (CInt 1952); Td (CInt 120447);
             Td (CStr "Asia"); Td (CFloat 51); Td (CFloat 9867)]]]
       [("width", "100%"); ("border", "1px solid black");
        ("border-collapse", "collapse")]]), sample_world).
Proof. reflexivity. Qed.

(** A negative count drops rows from the end, as the slice [[:n]] does. *)
Example head_negative :
  country <$> pd.head (-4) (gapminder sample_world) = ["Afghanistan"; "Afghanistan"].
Proof. reflexivity. Qed.

(** C10: in the preview, the cell at position [j] of body row [i] is the
    value that record [i] of the table holds under the column named by the
    header cell at position [j]. *)
Theorem update_table_cells_aligned (w : World) (N : Z) :
  ∃ (header : list string) (body : list (list Cell)),
    update_table N w
    = (Ok (Div [Table [Thead (Tr (Th <$> header));
                       Tbody ((λ cells, Tr (Td <$> cells)) <$> body)]
                  table_style]), w)
    ∧ header = columns
    ∧ body = pd.itertuple <$> pd.head N (gapminder w)
    ∧ ∀ i j cells h,
        body !! i = Some cells → header !! j = Some h →
        ∃ r cell, gapminder w !! i = Some r
                  ∧ cells !! j = Some cell
                  ∧ column h r = Some cell.
Proof.
  exists columns, (pd.itertuple <$> pd.head N (gapminder w)).
  rewrite update_table_run, preview_body. do 3 (split; [done|]).
  intros i j cells h Hi Hj.
  rewrite list_lookup_fmap in Hi. unfold pd.head in Hi.
  destruct (take _ _ !! i) as [r|] eqn:Hr; [|done].
  apply lookup_take_Some in Hr as [Hr _].
  injection Hi as <-. exists r.
  do 6 (destruct j as [|j]; [injection Hj as <-; eexists; by repeat split|]).
  done.
Qed.

Lemma update_table_cells_aligned_witness :
  ∃ (header : list string) (body : list (list Cell)) cells r,
    update_table 5 sample_world
    = (Ok (Div [Table [Thead (Tr (Th <$> header));
                       Tbody ((λ cells, Tr (Td <$> cells)) <$> body)]
                  table_style]), sample_world)
    ∧ body !! 3 = Some cells ∧ header !! 1 = Some "year"
    ∧ gapminder sample_world !! 3 = Some r
    ∧ cells !! 1 = Some (CInt 1957)
    ∧ column "year" r = Some (CInt 1957).
Proof.
  destruct (update_table_cells_aligned sample_world 5)
    as (header & body & Hrun & -> & -> & Haligned).
  destruct (Haligned 3 1 _ "year" eq_refl eq_refl) as (r & cell & Hr & Hcell & Hcol).
  injection Hr as <-. injection Hcell as <-.
  by repeat eexists.
Defined.

(** ** The scatterplot *)

Lemma join_cons_eq {A} (l : list A) (ls : list (list A)) :
  mjoin (l :: ls) = l ++ mjoin ls.
Proof. reflexivity. Qed.

Lemma join_fmap_fmap {A B} (f : A → B) (ls : list (list A)) :
  mjoin (fmap f <$> ls) = f <$> mjoin ls.
Proof.
  induction ls as [|l ls IH]; [done|].
  by rewrite fmap_cons, !join_cons_eq, fmap_app, IH.
Qed.

(** Filtering a list once for each of the keys of its elements splits it
    into groups that together hold every element once. *)
Lemma filter_groups_perm {A} `{EqDecision K} (g : A → K) (ks : list K) (l : list A) :
  NoDup ks → (∀ a, a ∈ l → g a ∈ ks) →
  mjoin ((λ k, filter (λ a, g a = k) l) <$> ks) ≡ₚ l.
Proof.
  intros Hnd. revert l. induction Hnd as [|k0 ks Hk0 Hnd IH]; intros l Hl.
  - destruct l as [|a l]; [done|].
    by destruct (not_elem_of_nil (g a) (Hl a ltac:(left))).
  - rewrite fmap_cons, join_cons_eq.
    rewrite (list_fmap_ext _
      (λ k, filter (λ a, g a = k) (filter (λ a, g a ≠ k0) l)) ks).
    + rewrite IH; [apply filter_app_complement|].
      intros a [Hne Ha]%list_elem_of_filter.
      specialize (Hl a Ha). apply elem_of_cons in Hl as [?|?]; done.
    + intros i k Hk. rewrite list_filter_filter. apply list_filter_iff.
      intros a. split; [|tauto]. intros Hga. split; [done|].
      intros Hgk0. apply Hk0. rewrite <- Hgk0, Hga.
      by eapply list_elem_of_lookup_2.
Qed.

(** The points of a list of rows whose coordinates are given by [fx] and
    [fy]. *)
Lemma row_points_fmap (x y : string) (fx fy : Row → Cell) (df : DataFrame) :
  (∀ r, column x r = Some (fx r)) → (∀ r, column y r = Some (fy r)) →
  row_points x y df = (λ r, (fx r, fy r)) <$> df.
Proof.
  intros Hx Hy. unfold row_points.
  induction df as [|r df IH]; [done|].
  cbn. rewrite Hx, Hy. cbn. by rewrite IH.
Qed.

(** The traces of a chart coloured by continent hold every row once. *)
Lemma scatter_points_perm (x y size hover title : string) (fx fy : Row → Cell)
    (df : DataFrame) :
  (∀ r, column x r = Some (fx r)) → (∀ r, column y r = Some (fy r)) →
  fig_points (ScatterFig df x y "continent" size hover title)
  ≡ₚ (λ r, (fx r, fy r)) <$> df.
Proof.
  intros Hx Hy. unfold fig_points, fig_traces.
  rewrite bool_decide_eq_true_2 by (by apply (bool_decide_unpack _)).
  rewrite (omap_column "continent" CStr continent) by done.
  set (ks := pd.unique ((λ r, CStr (continent r)) <$> df)).
  assert ((λ k, row_points x y (filter (λ r, column "continent" r = Some k) df)) <$> ks
          = fmap (λ r, (fx r, fy r))
              <$> ((λ k, filter (λ r, CStr (continent r) = k) df) <$> ks)) as ->.
  { rewrite <- list_fmap_compose. apply list_fmap_ext. intros _ k _. unfold compose.
    rewrite (row_points_fmap x y fx fy) by done. f_equal.
    apply list_filter_iff. intros r.
    change (column "continent" r) with (Some (CStr (continent r))).
    split; congruence. }
  rewrite join_fmap_fmap.
  apply fmap_Permutation, (filter_groups_perm (λ r, CStr (continent r)));
    [apply NoDup_unique|].
  intros r Hr. apply elem_of_unique, list_elem_of_fmap. eauto.
Qed.

(** C7 (as amended): for axis selections [x] and [y] among the three
    numeric fields, equal or not, and a table without negative
    populations, the scatterplot is drawn over the whole table: its traces
    hold one point per row of the table, so as many points as the table
    has rows.  (The populations are the marker sizes; the plotting call
    rejects a negative one.) *)
Theorem update_scatterplot_all_rows (w : World) (x y : string) :
  x ∈ numeric_fields → y ∈ numeric_fields →
  Forall (λ r, (0 ≤ pop r)%Z) (gapminder w) →
  ∃ fig (fx fy : Row → Cell),
    update_scatterplot x y w = (Ok fig, w)
    ∧ fig = ScatterFig (gapminder w) x y "continent" "pop" "country"
              ("Scatterplot of " +:+ y +:+ " vs " +:+ x)
    ∧ fig_rows fig = gapminder w
    ∧ (∀ r, column x r = Some (fx r) ∧ column y r = Some (fy r))
    ∧ fig_points fig ≡ₚ (λ r, (fx r, fy r)) <$> gapminder w
    ∧ length (fig_points fig) = length (gapminder w).
Proof.
  intros Hx Hy Hpop.
  assert (∀ c, c ∈ numeric_fields → ∃ f : Row → Cell, ∀ r, column c r = Some (f r))
    as Hnum.
  { intros c Hc. unfold numeric_fields in Hc.
    rewrite !elem_of_cons, elem_of_nil in Hc.
    destruct Hc as [->|[->|[->|[]]]]; eexists; intros r; reflexivity. }
  destruct (Hnum x Hx) as [fx Hfx], (Hnum y Hy) as [fy Hfy].
  apply numeric_fields_columns in Hx, Hy.
  eexists _, fx, fy. split; [by apply update_scatterplot_run|].
  split; [done|]. split; [done|]. split; [done|].
  pose proof (scatter_points_perm x y "pop" "country"
                ("Scatterplot of " +:+ y +:+ " vs " +:+ x) fx fy (gapminder w)
                Hfx Hfy) as Hperm.
  split; [exact Hperm|]. by rewrite Hperm, length_fmap.
Qed.

Lemma update_scatterplot_all_rows_witness :
  "lifeExp" ∈ numeric_fields ∧ "lifeExp" ∈ numeric_fields
  ∧ Forall (λ r, (0 ≤ pop r)%Z) (gapminder sample_world)
  ∧ ∃ fig (fx fy : Row → Cell),
      update_scatterplot "lifeExp" "lifeExp" sample_world = (Ok fig, sample_world)
      ∧ fig = ScatterFig (gapminder sample_world) "lifeExp" "lifeExp"
                "continent" "pop" "country" "Scatterplot of lifeExp vs lifeExp"
      ∧ fig_rows fig = gapminder sample_world
      ∧ (∀ r, column "lifeExp" r = Some (fx r) ∧ column "lifeExp" r = Some (fy r))
      ∧ fig_points fig ≡ₚ (λ r, (fx r, fy r)) <$> gapminder sample_world
      ∧ length (fig_points fig) = 6.
Proof.
  assert ("lifeExp" ∈ numeric_fields) as H by (by apply (bool_decide_unpack _)).
  assert (Forall (λ r, (0 ≤ pop r)%Z) (gapminder sample_world)) as Hpop.
  { repeat constructor; cbn; lia. }
  split; [exact H|]. split; [exact H|]. split; [exact Hpop|].
  exact (update_scatterplot_all_rows sample_world "lifeExp" "lifeExp" H H Hpop).
Defined.

(** C7 (as stated) fails: on a table that holds a negative population the
    scatterplot callback raises, for axis selections among the numeric
    fields, instead of returning a chart with one point per row. *)
Lemma update_scatterplot_negative_pop :
  "gdpPercap" ∈ numeric_fields ∧ "lifeExp" ∈ numeric_fields
  ∧ length (gapminder negative_pop_world) = 2
  ∧ update_scatterplot "gdpPercap" "lifeExp" negative_pop_world
    = (Raise (ValueError "Invalid element(s) received for the 'size' property of scatter.marker"),
       negative_pop_world)
  ∧ ¬ ∃ fig, update_scatterplot "gdpPercap" "lifeExp" negative_pop_world
             = (Ok fig, negative_pop_world).
Proof.
  split; [by apply (bool_decide_unpack _)|]. split; [by apply (bool_decide_unpack _)|].
  split; [done|]. split; [reflexivity|].
  intros [fig Hfig]. discriminate Hfig.
Qed.

(** The traces of the sample table: Asia, Europe, Africa. *)
Example update_scatterplot_traces :
  fig_traces (ScatterFig (gapminder sample_world) "year" "pop" "continent" "pop"
                "country" "Scatterplot of pop vs year")
  = [[(CInt 1952, CInt 8425333); (CInt 1957, CInt 9240934); (CInt 1952, CInt 120447)];
     [(CInt 1952, CInt 1282697); (CInt 1957, CInt 1476505)];
     [(CInt 1952, CInt 9279525)]].
Proof. reflexivity. Qed.

(** ** The trend chart *)

Lemma filter_none {A} (P : A → Prop) `{∀ x, Decision (P x)} (l : list A) :
  (∀ x, x ∈ l → ¬ P x) → filter P l = [].
Proof.
  induction l as [|a l IH]; intros Hl; [done|].
  rewrite filter_cons. destruct (decide (P a)) as [Ha|_].
  - exfalso. apply (Hl a); [left | done].
  - apply IH. intros x Hx. apply Hl. by right.
Qed.

(** A sublist keeps the relative order of the rows it keeps. *)
Lemma sublist_lookup_order {A} (l1 l2 : list A) :
  l1 `sublist_of` l2 →
  ∀ i j a b, i < j → l1 !! i = Some a → l1 !! j = Some b →
    ∃ i' j', i' < j' ∧ l2 !! i' = Some a ∧ l2 !! j' = Some b.
Proof.
  induction 1 as [|x l1 l2 Hsub IH|x l1 l2 Hsub IH]; intros i j a b Hij Hi Hj.
  - done.
  - destruct j as [|j]; [lia|]. cbn in Hj. destruct i as [|i].
    + injection Hi as ->.
      assert (b ∈ l2) as [j' Hj']%list_elem_of_lookup.
      { eapply elem_of_sublist; [|exact Hsub]. by eapply list_elem_of_lookup_2. }
      exists 0, (S j'). split; [lia|]. by split.
    + cbn in Hi. destruct (IH i j a b) as (i' & j' & Hlt & Hi' & Hj'); [lia|done..|].
      exists (S i'), (S j'). split; [lia|]. by split.
  - destruct (IH i j a b Hij Hi Hj) as (i' & j' & Hlt & Hi' & Hj').
    exists (S i'), (S j'). split; [lia|]. by split.
Qed.

(** Filtering on the country keeps the year order the table has within
    that country. *)
Lemma filter_country_year_ordered (rel : Z → Z → Prop) (df : DataFrame) (c : string) :
  year_ordered_per_country rel df →
  year_ordered rel (filter (λ r, country r = c) df).
Proof.
  intros Hdf i j ri rj Hij Hi Hj.
  assert (country ri = c ∧ country rj = c) as [Hci Hcj].
  { split.
    - apply list_elem_of_lookup_2 in Hi. by apply list_elem_of_filter in Hi as [? _].
    - apply list_elem_of_lookup_2 in Hj. by apply list_elem_of_filter in Hj as [? _]. }
  destruct (sublist_lookup_order _ _ (sublist_filter _ df) i j ri rj Hij Hi Hj)
    as (i' & j' & Hlt & Hi' & Hj').
  apply (Hdf i' j' ri rj Hlt Hi' Hj'). congruence.
Qed.

(** C2 (as amended): for every country of the table, the trend chart is
    drawn over exactly the rows of that country, in table order; the
    callback does not sort, so these rows are in increasing year order
    whenever the table lists the rows of each country in increasing year
    order (strictly or not). *)
Theorem update_trend_chart_country_rows (w : World) (c : string) :
  c ∈ country_options (gapminder w) →
  ∃ rows,
    update_trend_chart c w
    = (Ok (LineFig rows "year" "lifeExp"
             ("Life Expectancy Over Time for " +:+ c) true), w)
    ∧ rows = filter (λ r, country r = c) (gapminder w)
    ∧ (∀ r, r ∈ rows ↔ r ∈ gapminder w ∧ country r = c)
    ∧ rows `sublist_of` gapminder w
    ∧ rows ≠ []
    ∧ (year_ordered_per_country Z.le (gapminder w) → year_ordered Z.le rows)
    ∧ (year_ordered_per_country Z.lt (gapminder w) → year_ordered Z.lt rows).
Proof.
  intros Hc. eexists. split; [apply update_trend_chart_run|].
  split; [done|]. split; [|split; [apply sublist_filter|split]].
  - intros r. rewrite list_elem_of_filter. tauto.
  - unfold country_options in Hc.
    apply elem_of_unique, list_elem_of_fmap in Hc as (r & -> & Hr).
    intros Hnil. eapply (filter_nil_not_elem_of _ _ r); [exact Hnil|done|done].
  - split; apply filter_country_year_ordered.
Qed.

Lemma update_trend_chart_country_rows_witness :
  "Albania" ∈ country_options (gapminder sample_world)
  ∧ ∃ rows,
      update_trend_chart "Albania" sample_world
      = (Ok (LineFig rows "year" "lifeExp"
               "Life Expectancy Over Time for Albania" true), sample_world)
      ∧ rows = filter (λ r, country r = "Albania") (gapminder sample_world)
      ∧ (∀ r, r ∈ rows ↔ r ∈ gapminder sample_world ∧ country r = "Albania")
      ∧ rows `sublist_of` gapminder sample_world
      ∧ rows ≠ []
      ∧ (year_ordered_per_country Z.le (gapminder sample_world) → year_ordered Z.le rows)
      ∧ (year_ordered_per_country Z.lt (gapminder sample_world) → year_ordered Z.lt rows).
Proof.
  assert ("Albania" ∈ country_options (gapminder sample_world)) as H.
  { apply (bool_decide_unpack _). vm_compute. exact I. }
  split; [exact H|].
  exact (update_trend_chart_country_rows sample_world "Albania" H).
Defined.

(** C2 (as stated) fails: on a table that lists 2007 before 2002 for one
    country, the trend chart of that country keeps that order. *)
Lemma update_trend_chart_not_year_sorted :
  "Chad" ∈ country_options (gapminder unsorted_world)
  ∧ ∃ fig,
      update_trend_chart "Chad" unsorted_world = (Ok fig, unsorted_world)
      ∧ fig_rows fig = filter (λ r, country r = "Chad") (gapminder unsorted_world)
      ∧ ¬ year_ordered Z.le (fig_rows fig).
Proof.
  split; [apply (bool_decide_unpack _); vm_compute; exact I|].
  eexists. split; [apply update_trend_chart_run|]. split; [done|].
  intros Hord.
  specialize (Hord 0 1 _ _ (Nat.lt_0_1) eq_refl eq_refl).
  cbn in Hord. lia.
Qed.

(** C5: for a country that the table does not contain, the trend callback
    returns a line chart over zero rows and raises nothing. *)
Theorem update_trend_chart_absent_country (w : World) (c : string) :
  c ∉ country_options (gapminder w) →
  update_trend_chart c w
  = (Ok (LineFig [] "year" "lifeExp"
           ("Life Expectancy Over Time for " +:+ c) true), w)
  ∧ ∀ fig, (update_trend_chart c w).1 = Ok fig →
      fig_rows fig = [] ∧ fig_points fig = [].
Proof.
  intros Hc.
  assert (filter (λ r, country r = c) (gapminder w) = []) as Hnil.
  { apply filter_none. intros r Hr Heq. apply Hc.
    unfold country_options.
    apply elem_of_unique, list_elem_of_fmap. eauto. }
  rewrite update_trend_chart_run, Hnil. split; [done|].
  intros fig Hfig. cbn in Hfig. by injection Hfig as <-.
Qed.

Lemma update_trend_chart_absent_country_witness :
  ("Atlantis" ∉ country_options (gapminder sample_world))
  ∧ update_trend_chart "Atlantis" sample_world
    = (Ok (LineFig [] "year" "lifeExp"
             "Life Expectancy Over Time for Atlantis" true), sample_world)
  ∧ ∀ fig, (update_trend_chart "Atlantis" sample_world).1 = Ok fig →
      fig_rows fig = [] ∧ fig_points fig = [].
Proof.
  assert ("Atlantis" ∉ country_options (gapminder sample_world)) as H.
  { apply (bool_decide_unpack _). vm_compute. exact I. }
  split; [exact H|].
  exact (update_trend_chart_absent_country sample_world "Atlantis" H).
Defined.

(** ** The map *)

Lemma length_filter_year (yr : Z) (df : DataFrame) :
  length (filter (λ r, year r = yr) df) = count_year yr df.
Proof.
  induction df as [|r df IH]; [done|].
  rewrite filter_cons. cbn [count_year].
  destruct (decide (year r = yr)) as [Heq|Hne].
  - apply Z.eqb_eq in Heq as ->. cbn. by rewrite IH.
  - apply Z.eqb_neq in Hne as ->. by rewrite IH.
Qed.

(** C6: for a year of the table and a variable among the three numeric
    fields, the map is drawn over exactly the rows of the table whose year
    is the selected one, so over as many rows as the table has records for
    that year. *)
Theorem update_map_chart_year_rows (w : World) (yr : Z) (variable : string) :
  yr ∈ year_marks (gapminder w) → variable ∈ numeric_fields →
  ∃ rows,
    update_map_chart yr variable w
    = (Ok (ChoroplethFig rows "country" "country names" variable "country"
             (variable +:+ " in " +:+ pretty yr) Plasma), w)
    ∧ rows = filter (λ r, year r = yr) (gapminder w)
    ∧ (∀ r, r ∈ rows ↔ r ∈ gapminder w ∧ year r = yr)
    ∧ rows `sublist_of` gapminder w
    ∧ length rows = count_year yr (gapminder w)
    ∧ 0 < length rows.
Proof.
  intros Hyr Hv%numeric_fields_columns.
  eexists. split; [by apply update_map_chart_run|].
  split; [done|]. split; [|split; [apply sublist_filter|split]].
  - intros r. rewrite list_elem_of_filter. tauto.
  - apply length_filter_year.
  - unfold year_marks in Hyr.
    apply elem_of_unique, list_elem_of_fmap in Hyr as (r & -> & Hr).
    destruct (filter _ _) as [|? ?] eqn:Hnil; [|cbn; lia].
    by destruct (filter_nil_not_elem_of _ _ r Hnil).
Qed.

Lemma update_map_chart_year_rows_witness :
  1952%Z ∈ year_marks (gapminder sample_world) ∧ "pop" ∈ numeric_fields
  ∧ ∃ rows,
      update_map_chart 1952 "pop" sample_world
      = (Ok (ChoroplethFig rows "country" "country names" "pop" "country"
               "pop in 1952" Plasma), sample_world)
      ∧ rows = filter (λ r, year r = 1952%Z) (gapminder sample_world)
      ∧ (∀ r, r ∈ rows ↔ r ∈ gapminder sample_world ∧ year r = 1952%Z)
      ∧ rows `sublist_of` gapminder sample_world
      ∧ length rows = 4
      ∧ 0 < length rows.
Proof.
  assert (1952%Z ∈ year_marks (gapminder sample_world)) as Hy.
  { apply (bool_decide_unpack _). vm_compute. exact I. }
  assert ("pop" ∈ numeric_fields) as Hv by (by apply (bool_decide_unpack _)).
  split; [exact Hy|]. split; [exact Hv|].
  exact (update_map_chart_year_rows sample_world 1952 "pop" Hy Hv).
Defined.

(** ** The correlation matrix *)

(** Two matrices of one shape with the same entries are equal. *)
Lemma matrix_ext (K : nat) (m m' : list (list float)) :
  shape K m → shape K m' →
  (∀ i j, i < K → j < K → entry m i j = entry m' i j) → m = m'.
Proof.
  intros [Hl Hrows] [Hl' Hrows'] Hentry. apply list_eq. intros i.
  destruct (decide (i < K)) as [Hi|Hi].
  - destruct (m !! i) as [row|] eqn:Hrow; [|apply lookup_ge_None in Hrow; lia].
    destruct (m' !! i) as [row'|] eqn:Hrow'; [|apply lookup_ge_None in Hrow'; lia].
    f_equal. apply list_eq. intros j.
    pose proof (Forall_lookup_1 _ _ _ _ Hrows Hrow) as Hr.
    pose proof (Forall_lookup_1 _ _ _ _ Hrows' Hrow') as Hr'. cbn in Hr, Hr'.
    destruct (decide (j < K)) as [Hj|Hj].
    + specialize (Hentry i j Hi Hj). unfold entry in Hentry.
      by rewrite Hrow, Hrow' in Hentry.
    + by rewrite !(proj2 (lookup_ge_None _ _)) by lia.
  - by rewrite !(proj2 (lookup_ge_None _ _)) by lia.
Qed.

Section Fill.
Variables (K : nat) (mat : list (list float)) (minpv : Z).

#[local] Abbreviation cell := (fill_cell mat minpv).

Lemma shape_setitem (m : list (list float)) (i j : nat) (v : float) :
  shape K m → shape K (corr.setitem m i j v).
Proof.
  intros [Hlen Hrows]. unfold corr.setitem. split.
  - by rewrite length_alter.
  - apply Forall_alter; [done|]. intros row _ Hrow. by rewrite length_insert.
Qed.

Lemma entry_setitem (m : list (list float)) (i j i' j' : nat) (v : float) :
  shape K m → i < K → j < K →
  entry (corr.setitem m i j v) i' j'
  = if decide (i' = i ∧ j' = j) then Some v else entry m i' j'.
Proof.
  intros [Hlen Hrows] Hi Hj. unfold entry, corr.setitem.
  rewrite list_lookup_alter.
  destruct (decide (i = i')) as [<-|Hne].
  - destruct (m !! i) as [row|] eqn:Hrow.
    + cbn. assert (length row = K) as Hr by exact (Forall_lookup_1 _ _ _ _ Hrows Hrow).
      destruct (decide (j = j')) as [<-|Hnej].
      * rewrite list_lookup_insert_eq by lia. by rewrite decide_True.
      * rewrite list_lookup_insert_ne by done. by rewrite decide_False by (intros [? ?]; by subst).
    + apply lookup_ge_None in Hrow. lia.
  - by rewrite decide_False by (intros [? ?]; by subst).
Qed.

Lemma shape_assign (m : list (list float)) (xi yi : nat) :
  shape K m → shape K (corr.assign mat minpv xi m yi).
Proof. intros Hm. unfold corr.assign. by do 2 apply shape_setitem. Qed.

Lemma entry_assign (m : list (list float)) (xi yi i j : nat) :
  shape K m → xi < K → yi ≤ xi →
  entry (corr.assign mat minpv xi m yi) i j
  = if decide ((i = xi ∧ j = yi) ∨ (i = yi ∧ j = xi)) then Some (cell i j)
    else entry m i j.
Proof.
  intros Hm Hxi Hyi. unfold corr.assign.
  rewrite entry_setitem by (try apply shape_setitem; done || lia).
  rewrite entry_setitem by (done || lia).
  unfold fill_cell.
  repeat case_decide; try (exfalso; tauto); try done.
  - destruct_and!; subst. by rewrite Nat.max_r, Nat.min_l by lia.
  - destruct_and!; subst. by rewrite Nat.max_l, Nat.min_r by lia.
Qed.

(** The inner loop, after [n] iterations on row [xi]. *)
Lemma inner_loop (m : list (list float)) (xi n : nat) :
  shape K m → xi < K → n ≤ S xi →
  let m' := foldl (corr.assign mat minpv xi) m (seq 0 n) in
  shape K m'
  ∧ ∀ i j, entry m' i j
           = if decide ((i = xi ∧ j < n) ∨ (j = xi ∧ i < n)) then Some (cell i j)
             else entry m i j.
Proof.
  intros Hm Hxi. induction n as [|n IH]; intros Hn; cbn zeta.
  - split; [done|]. intros i j. by rewrite decide_False by lia.
  - destruct IH as [Hshape Hentry]; [lia|].
    rewrite seq_S, foldl_snoc. cbn [plus]. split; [by apply shape_assign|].
    intros i j. rewrite entry_assign by (done || lia). rewrite Hentry.
    repeat case_decide; try done; exfalso; lia.
Qed.

(** The outer loop, after [n] rows. *)
Lemma outer_loop (m : list (list float)) (n : nat) :
  shape K m → n ≤ K →
  let m' := foldl (λ result xi, foldl (corr.assign mat minpv xi) result (seq 0 (S xi)))
                  m (seq 0 n) in
  shape K m'
  ∧ ∀ i j, entry m' i j
           = if decide (i < n ∧ j < n) then Some (cell i j) else entry m i j.
Proof.
  intros Hm. induction n as [|n IH]; intros Hn; cbn zeta.
  - split; [done|]. intros i j. by rewrite decide_False by lia.
  - destruct IH as [Hshape Hentry]; [lia|].
    rewrite seq_S, foldl_snoc. cbn [plus].
    destruct (inner_loop _ n (S n) Hshape) as [Hshape' Hentry']; [lia..|].
    split; [done|].
    intros i j. rewrite Hentry', Hentry.
    repeat case_decide; try done; exfalso; lia.
Qed.

(** Every cell of the result is written, whatever the allocated matrix
    held before. *)
Lemma fill_lookup (result0 : list (list float)) (i j : nat) :
  shape K result0 → i < K → j < K →
  entry (corr.fill result0 K mat minpv) i j = Some (cell i j).
Proof.
  intros H0 Hi Hj. unfold corr.fill.
  destruct (outer_loop result0 K H0) as [_ ->]; [done|].
  by rewrite decide_True.
Qed.

Lemma fill_shape (result0 : list (list float)) :
  shape K result0 → shape K (corr.fill result0 K mat minpv).
Proof. intros H0. by destruct (outer_loop result0 K H0). Qed.

Lemma np_empty_shape : shape K (corr.np_empty K).
Proof.
  unfold corr.np_empty. split; [by rewrite length_replicate|].
  apply Forall_replicate. by rewrite length_replicate.
Qed.

(** The content of the freshly allocated matrix does not show in the
    result. *)
Lemma fill_init_irrelevant (result0 result0' : list (list float)) :
  shape K result0 → shape K result0' →
  corr.fill result0 K mat minpv = corr.fill result0' K mat minpv.
Proof.
  intros H0 H0'. apply (matrix_ext K); [by apply fill_shape..|].
  intros i j Hi Hj. by rewrite !fill_lookup.
Qed.

Lemma nancorr_shape : shape K (corr.nancorr K mat minpv).
Proof. apply fill_shape, np_empty_shape. Qed.

Lemma nancorr_entry (i j : nat) :
  i < K → j < K →
  entry (corr.nancorr K mat minpv) i j
  = Some (corr.value minpv (corr.stats mat (i `max` j) (i `min` j))).
Proof. intros Hi Hj. by apply fill_lookup; [apply np_empty_shape|..]. Qed.

(** The result is symmetric. *)
Lemma nancorr_symmetric (i j : nat) :
  i < K → j < K →
  entry (corr.nancorr K mat minpv) i j = entry (corr.nancorr K mat minpv) j i.
Proof.
  intros Hi Hj. rewrite !nancorr_entry by done.
  by rewrite (Nat.max_comm j i), (Nat.min_comm j i).
Qed.

End Fill.

(** *** Facts about binary64 arithmetic *)

Section Finite.
Variables (s : bool) (m : positive) (e : Z).
Hypothesis Hvalid : bounded prec emax m e = true.

Lemma canonical_exponent : fexp prec emax (Zpos (digits2_pos m) + e) = e.
Proof.
  unfold bounded, canonical_mantissa in Hvalid.
  apply andb_prop in Hvalid as [H _]. by apply Z.eqb_eq in H.
Qed.

Lemma exponent_in_range : (e <=? emax - prec)%Z = true.
Proof. unfold bounded in Hvalid. by apply andb_prop in Hvalid as [_ H]. Qed.

(** A canonical mantissa is not shifted by rounding. *)
Lemma shr_fexp_canonical :
  shr_fexp prec emax (Zpos m) e loc_Exact
  = ({| shr_m := Zpos m; shr_r := false; shr_s := false |}, e).
Proof.
  unfold shr_fexp. cbn [Zdigits2].
  rewrite canonical_exponent, Z.sub_diag. reflexivity.
Qed.

Lemma mul_pow52 :
  (4503599627370496 * m)%positive
  = (m~0~0~0~0~0~0~0~0~0~0~0~0~0~0~0~0~0~0~0~0~0~0~0~0~0~0
      ~0~0~0~0~0~0~0~0~0~0~0~0~0~0~0~0~0~0~0~0~0~0~0~0~0~0)%positive.
Proof. reflexivity. Qed.

(** The mantissa of a product with 1.0 is shifted back by 52 bits,
    exactly. *)
Lemma shr_fexp_shifted :
  shr_fexp prec emax (Zpos (4503599627370496 * m)) (-52 + e) loc_Exact
  = ({| shr_m := Zpos m; shr_r := false; shr_s := false |}, e).
Proof.
  unfold shr_fexp.
  assert (fexp prec emax (Zdigits2 (Zpos (4503599627370496 * m)) + (-52 + e))
          - (-52 + e) = 52)%Z as ->.
  { pose proof canonical_exponent as Hc. cbn [Zdigits2].
    rewrite mul_pow52. cbn [digits2_pos].
    unfold fexp, SpecFloat.emin, prec, emax in *. lia. }
  rewrite mul_pow52.
  cbn [shr shr_record_of_loc]. f_equal; first [lia | reflexivity].
Qed.

(** [1.0 * x = x] *)
Lemma SFmul_one_l :
  SF64mul (Prim2SF 1%float) (S754_finite s m e) = S754_finite s m e.
Proof.
  change (Prim2SF 1%float) with (S754_finite false 4503599627370496 (-52)).
  unfold SF64mul, SFmul, binary_round_aux.
  rewrite shr_fexp_shifted.
  cbn [shr_m loc_of_shr_record round_nearest_even].
  rewrite shr_fexp_canonical. cbn [shr_m]. by rewrite exponent_in_range.
Qed.

(** [x - x = +0.0] *)
Lemma SFsub_self :
  SF64sub (S754_finite s m e) (S754_finite s m e) = S754_zero false.
Proof.
  unfold SF64sub, SFsub. rewrite Z.min_id. unfold shl_align.
  rewrite (Z.sub_diag e). cbn [fst]. by rewrite Z.sub_diag.
Qed.


End Finite.

(** A finite float is a zero or has a valid mantissa and exponent. *)
Lemma is_finite_cases (v : float) :
  is_finite v = true →
  (∃ s, Prim2SF v = S754_zero s)
  ∨ (∃ s m e, Prim2SF v = S754_finite s m e ∧ bounded prec emax m e = true).
Proof.
  unfold is_finite, is_nan, is_infinity. rewrite !FloatAxioms.eqb_spec, abs_spec.
  pose proof (Prim2SF_valid v) as Hv.
  change (Prim2SF infinity) with (S754_infinity false).
  destruct (Prim2SF v) as [s|s| |s m e]; [eauto | by destruct s | done | eauto 6].
Qed.

(** The squared-deviation sum after the first observation is [+0.0]:
    the mean moves onto the value and the deviation from it vanishes. *)
Lemma first_ssqdm (v : float) :
  is_finite v = true →
  (0 + (v - (0 + 1 / float_of_int 1 * (v - 0))) * (v - 0))%float = 0%float.
Proof.
  intros Hfin. change (1 / float_of_int 1)%float with 1%float.
  destruct (is_finite_cases v Hfin) as [[s Hs]|(s & m & e & Hs & Hvalid)].
  - rewrite <- (SF2Prim_Prim2SF v), Hs. by destruct s.
  - apply Prim2SF_inj.
    rewrite add_spec, mul_spec, !sub_spec, add_spec, mul_spec, sub_spec, Hs.
    change (Prim2SF 0%float) with (S754_zero false).
    change (SF64sub (S754_finite s m e) (S754_zero false)) with (S754_finite s m e).
    rewrite SFmul_one_l by done.
    change (SF64add (S754_zero false) (S754_finite s m e)) with (S754_finite s m e).
    rewrite SFsub_self. by destruct s.
Qed.


(** *** The sums of the Welford loop *)




(** Fewer than two rows give not-a-number for every pair. *)
Lemma value_short (mat : list (list float)) (xi yi : nat) :
  length mat < 2 → corr.value 1 (corr.stats mat xi yi) = nan.
Proof.
  intros Hlen. destruct mat as [|row [|row' mat]]; [done| |cbn in Hlen; lia].
  unfold corr.stats. cbn [foldl]. unfold corr.observe.
  destruct (is_finite (nth xi row nan)) eqn:Hx; [|done].
  destruct (is_finite (nth yi row nan)) eqn:Hy; [|done].
  unfold corr.value, corr.step, corr.acc0.
  cbn [nobs ssqdm_x ssqdm_y covxy meanx meany andb].
  change (0 + 1)%Z with 1%Z.
  by rewrite (first_ssqdm _ Hx), (first_ssqdm _ Hy).
Qed.

(** *** The callback *)

Lemma getitem_list_numeric (df : DataFrame) :
  pd.getitem_list df ["gdpPercap"; "lifeExp"; "pop"]
  = Ok (mkNumFrame ["gdpPercap"; "lifeExp"; "pop"] (numeric_row <$> df)).
Proof.
  unfold pd.getitem_list.
  change (filter (λ c, ¬ c ∈ columns) ["gdpPercap"; "lifeExp"; "pop"]) with (@nil string).
  assert (pd.sequence ((λ r, pd.sequence (pd.to_float <$>
              omap (λ c, column c r) ["gdpPercap"; "lifeExp"; "pop"])) <$> df)
          = Ok (numeric_row <$> df)) as ->; [|done].
  induction df as [|r df IH]; [done|].
  cbn [fmap list_fmap pd.sequence]. rewrite IH. reflexivity.
Qed.

Lemma update_correlation_matrix_run (c : string) (w : World) :
  update_correlation_matrix c w
  = (Ok (ImshowFig
           (mkCorrFrame ["gdpPercap"; "lifeExp"; "pop"]
              (corr.nancorr 3
                 (numeric_row <$> filter (λ r, continent r = c) (gapminder w)) 1))
           true (dict_of [("color", "Correlation")])
           ("Correlation Matrix for " +:+ c)), w).
Proof.
  unfold update_correlation_matrix, mbind, App_bind, read_gapminder, call.
  rewrite getitem_ok by apply columns_elems.
  rewrite mask_continent, getitem_list_numeric. reflexivity.
Qed.



(** The matrix of the three Asian rows of the sample table: the
    coefficients are about 0.99934, -0.99640 and -0.99267. *)
Example update_correlation_matrix_asia :
  (update_correlation_matrix "Asia" sample_world).1
  = Ok (ImshowFig
          (mkCorrFrame ["gdpPercap"; "lifeExp"; "pop"]
             [[1; 0x1.ffa9e7d8f2be4p-1; -0x1.fe27db13cf4cdp-1];
              [0x1.ffa9e7d8f2be4p-1; 1; -0x1.fc3f44f1eed99p-1];
              [-0x1.fe27db13cf4cdp-1; -0x1.fc3f44f1eed99p-1; 1]]%float)
          true [("color", "Correlation")] "Correlation Matrix for Asia").
Proof. vm_compute. reflexivity. Qed.


(** C4: for every continent selection that matches fewer than two rows,
    the correlation callback raises nothing and returns a heatmap whose
    3 by 3 matrix holds not-a-number in every entry. *)
Theorem update_correlation_matrix_degenerate (w : World) (c : string) :
  length (filter (λ r, continent r = c) (gapminder w)) < 2 →
  ∃ m,
    update_correlation_matrix c w
    = (Ok (ImshowFig (mkCorrFrame numeric_fields m) true
             (dict_of [("color", "Correlation")])
             ("Correlation Matrix for " +:+ c)), w)
    ∧ shape 3 m
    ∧ (∀ i j, i < 3 → j < 3 → entry m i j = Some nan)
    ∧ m = [[nan; nan; nan]; [nan; nan; nan]; [nan; nan; nan]].
Proof.
  intros Hlen. eexists. split; [apply update_correlation_matrix_run|].
  set (mat := numeric_row <$> filter (λ r, continent r = c) (gapminder w)).
  assert (length mat < 2) as Hmat by (unfold mat; by rewrite length_fmap).
  assert (∀ i j, i < 3 → j < 3 → entry (corr.nancorr 3 mat 1) i j = Some nan) as Hall.
  { intros i j Hi Hj. rewrite nancorr_entry by done. by rewrite value_short. }
  split; [apply nancorr_shape|]. split; [done|].
  apply (matrix_ext 3); [apply nancorr_shape | by repeat constructor |].
  intros i j Hi Hj. rewrite Hall by done.
  do 3 (destruct i as [|i]; [do 3 (destruct j as [|j]; [done|]); lia|]). lia.
Qed.

Lemma update_correlation_matrix_degenerate_witness :
  length (filter (λ r, continent r = "Africa") (gapminder sample_world)) < 2
  ∧ ∃ m,
      update_correlation_matrix "Africa" sample_world
      = (Ok (ImshowFig (mkCorrFrame numeric_fields m) true
               (dict_of [("color", "Correlation")])
               "Correlation Matrix for Africa"), sample_world)
      ∧ shape 3 m
      ∧ (∀ i j, i < 3 → j < 3 → entry m i j = Some nan)
      ∧ m = [[nan; nan; nan]; [nan; nan; nan]; [nan; nan; nan]].
Proof.
  assert (length (filter (λ r, continent r = "Africa") (gapminder sample_world)) < 2)
    as H by (vm_compute; lia).
  split; [exact H|].
  exact (update_correlation_matrix_degenerate sample_world "Africa" H).
Defined.

(** ** Purity of the callbacks *)

Lemma frame_read : frame read_gapminder.
Proof. by intros w. Qed.

Lemma frame_call {A} (r : Result A) : frame (call r).
Proof. by intros w. Qed.

Lemma frame_ret {A} (a : A) : frame (mret a).
Proof. by intros w. Qed.

Lemma frame_bind {A B} (m : App A) (k : A → App B) :
  frame m → (∀ a, frame (k a)) → frame (m ≫= k).
Proof.
  intros Hm Hk w. unfold mbind, App_bind.
  specialize (Hm w). destruct (m w) as [[a|e] w']; cbn in *; subst; [apply Hk | done].
Qed.

Lemma frame_fmap {A B} (f : A → B) (m : App A) : frame m → frame (f <$> m).
Proof.
  intros Hm w. unfold fmap, App_fmap.
  specialize (Hm w). by destruct (m w) as [[a|e] w'].
Qed.

Lemma dataset_only_read : dataset_only read_gapminder.
Proof. intros w1 w2 H. cbn. by rewrite H. Qed.

Lemma dataset_only_call {A} (r : Result A) : dataset_only (call r).
Proof. by intros w1 w2 _. Qed.

Lemma dataset_only_ret {A} (a : A) : dataset_only (mret a).
Proof. by intros w1 w2 _. Qed.

Lemma dataset_only_bind {A B} (m : App A) (k : A → App B) :
  frame m → dataset_only m → (∀ a, dataset_only (k a)) → dataset_only (m ≫= k).
Proof.
  intros Hf Hm Hk w1 w2 Hw. unfold mbind, App_bind.
  pose proof (Hf w1) as H1. pose proof (Hf w2) as H2. specialize (Hm w1 w2 Hw).
  destruct (m w1) as [r1 w1'], (m w2) as [r2 w2']. cbn in *. subst.
  destruct r2 as [a|e]; [by apply Hk | done].
Qed.

Lemma dataset_only_fmap {A B} (f : A → B) (m : App A) :
  dataset_only m → dataset_only (f <$> m).
Proof.
  intros Hm w1 w2 Hw. unfold fmap, App_fmap. specialize (Hm w1 w2 Hw).
  destruct (m w1) as [r1 w1'], (m w2) as [r2 w2']. cbn in *. subst.
  by destruct r2.
Qed.

Create HintDb purity.
#[local] Hint Resolve frame_read frame_call frame_ret frame_fmap
  dataset_only_read dataset_only_call dataset_only_ret dataset_only_fmap : purity.
#[local] Hint Extern 2 (frame (_ ≫= _)) => apply frame_bind; [|intros ?] : purity.
#[local] Hint Extern 2 (dataset_only (_ ≫= _)) =>
  apply dataset_only_bind; [| |intros ?] : purity.

Lemma update_table_pure (rows : Z) :
  frame (update_table rows) ∧ dataset_only (update_table rows).
Proof. unfold update_table. split; auto 10 with purity. Qed.

Lemma update_scatterplot_pure (x y : string) :
  frame (update_scatterplot x y) ∧ dataset_only (update_scatterplot x y).
Proof. unfold update_scatterplot. split; auto 10 with purity. Qed.

Lemma update_trend_chart_pure (c : string) :
  frame (update_trend_chart c) ∧ dataset_only (update_trend_chart c).
Proof. unfold update_trend_chart. split; auto 10 with purity. Qed.

Lemma update_map_chart_pure (yr : Z) (v : string) :
  frame (update_map_chart yr v) ∧ dataset_only (update_map_chart yr v).
Proof. unfold update_map_chart. split; auto 10 with purity. Qed.

Lemma update_correlation_matrix_pure (c : string) :
  frame (update_correlation_matrix c) ∧ dataset_only (update_correlation_matrix c).
Proof. unfold update_correlation_matrix. split; auto 10 with purity. Qed.

Lemma dispatch_pure (c : Call) : frame (dispatch c) ∧ dataset_only (dispatch c).
Proof.
  destruct c; cbn [dispatch].
  - destruct (update_table_pure rows). split; auto with purity.
  - destruct (update_scatterplot_pure x_col y_col). split; auto with purity.
  - destruct (update_trend_chart_pure selected_country). split; auto with purity.
  - destruct (update_map_chart_pure selected_year variable). split; auto with purity.
  - destruct (update_correlation_matrix_pure selected_continent).
    split; auto with purity.
Qed.

Lemma serve_frame (calls : list Call) (w : World) : (serve calls w).2 = w.
Proof.
  induction calls as [|c calls IH]; [done|].
  cbn [serve]. pose proof (proj1 (dispatch_pure c) w) as Hc.
  destruct (dispatch c w) as [r w']. cbn in Hc. subst w'.
  by destruct (serve calls w) as [rs w''].
Qed.

(** C9: no sequence of callback invocations, whatever the widget values,
    changes the table: afterwards the globals, and [gapminder] among them,
    are those loaded at startup. *)
Theorem serve_preserves_gapminder (calls : list Call) (w : World) :
  gapminder (serve calls w).2 = gapminder w
  ∧ (serve calls w).2 = w
  ∧ length (serve calls w).1 = length calls.
Proof.
  rewrite serve_frame. split; [done|]. split; [done|].
  revert w. induction calls as [|c calls IH]; intros w; [done|].
  cbn [serve]. destruct (dispatch c w) as [r w'].
  specialize (IH w'). destruct (serve calls w') as [rs w'']. cbn in *. by rewrite IH.
Qed.

(** C8: each of the five callbacks is a function of the table and of its
    widget values only: invoked with equal widget values in two states
    that hold equal tables, after any two call histories, it returns equal
    results. *)
Theorem dispatch_deterministic (c : Call) (w1 w2 : World) (history1 history2 : list Call) :
  gapminder w1 = gapminder w2 →
  (dispatch c (serve history1 w1).2).1 = (dispatch c (serve history2 w2).2).1.
Proof.
  intros Hw. rewrite !serve_frame. by apply dispatch_pure.
Qed.

Lemma dispatch_deterministic_witness :
  gapminder sample_world = gapminder (mkWorld "mirror.csv" (gapminder sample_world))
  ∧ (dispatch (CallTrend "Albania")
       (serve [CallTable 10; CallCorrelation "Asia"] sample_world).2).1
    = (dispatch (CallTrend "Albania")
         (serve [CallMap 1952 "pop"; CallScatterplot "pop" "unknown"]
            (mkWorld "mirror.csv" (gapminder sample_world))).2).1.
Proof.
  split; [reflexivity|].
  exact (dispatch_deterministic (CallTrend "Albania") sample_world
           (mkWorld "mirror.csv" (gapminder sample_world))
           [CallTable 10; CallCorrelation "Asia"]
           [CallMap 1952 "pop"; CallScatterplot "pop" "unknown"] eq_refl).
Defined.

(** ** The preview for any row count *)

Lemma slice_stop_le (n : Z) (len : nat) :
  pd.slice_stop n len `min` len
  = if (n <? 0)%Z then len - Z.to_nat (- n) else Z.to_nat n `min` len.
Proof. unfold pd.slice_stop. destruct (Z.ltb_spec n 0); lia. Qed.

Lemma take_min_length {A} (n : nat) (l : list A) :
  take (n `min` length l) l = take n l.
Proof.
  destruct (Nat.min_spec n (length l)) as [[_ ->]|[Hle ->]]; [done|].
  by rewrite firstn_all, take_ge.
Qed.

(** X1: for every integer row count, also zero, negative or larger than
    the table, the preview callback raises nothing; the body holds the
    first rows of the table, [min N len] of them for [N >= 0] and all but
    the last [-N] (none when the table is shorter) for [N < 0], and body
    row [i] holds the six values of record [i] of the table. *)
Theorem update_table_any_count (w : World) (N : Z) :
  ∃ body : list (list Cell),
    update_table N w
    = (Ok (Div [Table [Thead (Tr (Th <$> ["country"; "year"; "pop"; "continent";
                                           "lifeExp"; "gdpPercap"]));
                       Tbody ((λ cells, Tr (Td <$> cells)) <$> body)]
                  table_style]), w)
    ∧ length body
      = (if (N <? 0)%Z then length (gapminder w) - Z.to_nat (- N)
         else Z.to_nat N `min` length (gapminder w))
    ∧ body = (λ r, [CStr (country r); CInt (year r); CInt (pop r);
                    CStr (continent r); CFloat (lifeExp r); CFloat (gdpPercap r)])
             <$> take (length body) (gapminder w).
Proof.
  exists (pd.itertuple <$> pd.head N (gapminder w)).
  rewrite update_table_run, preview_body. split; [done|].
  unfold pd.head. rewrite length_fmap, length_take, slice_stop_le.
  split; [done|].
  by rewrite <- slice_stop_le, take_min_length.
Qed.

(** X2: the preview table is rectangular: every body row has as many
    cells as the header row, whatever the row count and the table. *)
Theorem update_table_rectangular (w : World) (N : Z) :
  ∃ (header : list string) (body : list (list Cell)),
    update_table N w
    = (Ok (Div [Table [Thead (Tr (Th <$> header));
                       Tbody ((λ cells, Tr (Td <$> cells)) <$> body)]
                  table_style]), w)
    ∧ Forall (λ cells, length cells = length header) body.
Proof.
  exists columns, (pd.itertuple <$> pd.head N (gapminder w)).
  rewrite update_table_run, preview_body. split; [done|].
  apply Forall_fmap, Forall_forall. by intros r _.
Qed.

(** X3: raising the row count only appends rows: for [0 <= N <= M] the
    body rows shown for [N] are the first body rows shown for [M]. *)
Theorem update_table_monotone (w : World) (N M : Z) :
  (0 ≤ N ≤ M)%Z →
  ∃ bodyN bodyM : list (list Cell),
    update_table N w
    = (Ok (Div [Table [Thead (Tr (Th <$> columns));
                       Tbody ((λ cells, Tr (Td <$> cells)) <$> bodyN)]
                  table_style]), w)
    ∧ update_table M w
      = (Ok (Div [Table [Thead (Tr (Th <$> columns));
                         Tbody ((λ cells, Tr (Td <$> cells)) <$> bodyM)]
                    table_style]), w)
    ∧ bodyN `prefix_of` bodyM.
Proof.
  intros HNM.
  exists (pd.itertuple <$> pd.head N (gapminder w)),
         (pd.itertuple <$> pd.head M (gapminder w)).
  rewrite !update_table_run, !preview_body. split; [done|]. split; [done|].
  rewrite !head_nonneg by lia.
  replace (take (Z.to_nat N) (gapminder w))
    with (take (Z.to_nat N) (take (Z.to_nat M) (gapminder w)))
    by (rewrite take_take; f_equal; lia).
  rewrite fmap_take. apply prefix_take.
Qed.

Lemma update_table_monotone_witness :
  (0 ≤ 2 ≤ 5)%Z
  ∧ ∃ bodyN bodyM : list (list Cell),
      update_table 2 sample_world
      = (Ok (Div [Table [Thead (Tr (Th <$> columns));
                         Tbody ((λ cells, Tr (Td <$> cells)) <$> bodyN)]
                    table_style]), sample_world)
      ∧ update_table 5 sample_world
        = (Ok (Div [Table [Thead (Tr (Th <$> columns));
                           Tbody ((λ cells, Tr (Td <$> cells)) <$> bodyM)]
                      table_style]), sample_world)
      ∧ bodyN `prefix_of` bodyM.
Proof.
  assert (0 ≤ 2 ≤ 5)%Z as H by lia.
  split; [exact H|]. exact (update_table_monotone sample_world 2 5 H).
Defined.

(** ** Column arguments that the callbacks pass on *)

Lemma check_columns_raise (args : list string) :
  ¬ Forall (λ c, c ∈ columns) args →
  ∃ c, c ∈ args ∧ (c ∉ columns) ∧ px.check_columns args = Raise (ValueError c).
Proof.
  intros Hargs. unfold px.check_columns.
  destruct (filter (λ c, ¬ c ∈ columns) args) as [|c bad] eqn:Hbad.
  - exfalso. apply Hargs, Forall_forall. intros c Hc.
    destruct (decide (c ∈ columns)) as [|Hn]; [done|].
    by destruct (filter_nil_not_elem_of _ _ c Hbad Hn).
  - exists c. assert (c ∈ filter (λ c, ¬ c ∈ columns) args) as Hin
      by (rewrite Hbad; left).
    apply list_elem_of_filter in Hin as [Hn Hin]. by repeat split.
Qed.

(** X4: the scatterplot callback does not check its axis selections
    itself.  When one of them names no column of the table the plotting
    call raises a [ValueError] for that selection.  When both name a
    column (any of the six, not only the three offered by the dropdowns)
    the callback returns a chart over the whole table if no population is
    negative, and otherwise the plotting call raises a [ValueError] for
    the marker sizes.  The globals are untouched in all three cases. *)
Theorem update_scatterplot_columns (w : World) (x y : string) :
  (x ∈ columns ∧ y ∈ columns ∧ Forall (λ r, (0 ≤ pop r)%Z) (gapminder w) →
     update_scatterplot x y w
     = (Ok (ScatterFig (gapminder w) x y "continent" "pop" "country"
              ("Scatterplot of " +:+ y +:+ " vs " +:+ x)), w))
  ∧ (x ∈ columns ∧ y ∈ columns ∧ ¬ Forall (λ r, (0 ≤ pop r)%Z) (gapminder w) →
     update_scatterplot x y w
     = (Raise (ValueError
          "Invalid element(s) received for the 'size' property of scatter.marker"), w))
  ∧ (¬ (x ∈ columns ∧ y ∈ columns) →
     ∃ c, (c = x ∨ c = y) ∧ (c ∉ columns)
          ∧ update_scatterplot x y w = (Raise (ValueError c), w)).
Proof.
  split; [|split].
  - intros (Hx & Hy & Hpop). by apply update_scatterplot_run.
  - intros (Hx & Hy & Hpop).
    unfold update_scatterplot, mbind, App_bind, read_gapminder, call, px.scatter.
    rewrite check_columns_ok by known_columns.
    pose proof (check_sizes_pop (gapminder w)) as Hs.
    unfold px.check_sizes in *.
    destruct (forallb _ _); [exfalso; by apply Hpop, Hs | done].
  - intros Hxy.
    destruct (check_columns_raise [x; y; "continent"; "pop"; "country"])
      as (c & Hc & Hn & Hraise).
    { rewrite !Forall_cons. tauto. }
    exists c. split; [|split; [done|]].
    + rewrite !elem_of_cons, elem_of_nil in Hc.
      destruct Hc as [->|[->|[->|[->|[->|[]]]]]]; try tauto;
        exfalso; apply Hn; apply columns_elems.
    + unfold update_scatterplot, mbind, App_bind, read_gapminder, call, px.scatter.
      by rewrite Hraise.
Qed.

Lemma update_scatterplot_columns_witness :
  ("country" ∈ columns ∧ "year" ∈ columns
   ∧ Forall (λ r, (0 ≤ pop r)%Z) (gapminder sample_world))
  ∧ update_scatterplot "country" "year" sample_world
    = (Ok (ScatterFig (gapminder sample_world) "country" "year" "continent" "pop"
             "country" "Scatterplot of year vs country"), sample_world)
  ∧ ("lifeExp" ∈ columns ∧ "gdpPercap" ∈ columns
     ∧ ¬ Forall (λ r, (0 ≤ pop r)%Z) (gapminder negative_pop_world))
  ∧ update_scatterplot "lifeExp" "gdpPercap" negative_pop_world
    = (Raise (ValueError
         "Invalid element(s) received for the 'size' property of scatter.marker"),
       negative_pop_world)
  ∧ ¬ ("gdp" ∈ columns ∧ "lifeExp" ∈ columns)
  ∧ ∃ c, (c = "gdp" ∨ c = "lifeExp") ∧ (c ∉ columns)
         ∧ update_scatterplot "gdp" "lifeExp" sample_world
           = (Raise (ValueError c), sample_world).
Proof.
  assert ("country" ∈ columns ∧ "year" ∈ columns
          ∧ Forall (λ r, (0 ≤ pop r)%Z) (gapminder sample_world)) as Hok.
  { split; [by apply (bool_decide_unpack _)|].
    split; [by apply (bool_decide_unpack _)|].
    repeat constructor; cbn; lia. }
  assert ("lifeExp" ∈ columns ∧ "gdpPercap" ∈ columns
          ∧ ¬ Forall (λ r, (0 ≤ pop r)%Z) (gapminder negative_pop_world)) as Hneg.
  { split; [by apply (bool_decide_unpack _)|].
    split; [by apply (bool_decide_unpack _)|].
    unfold negative_pop_world. cbn [gapminder]. rewrite !Forall_cons. cbn. lia. }
  assert (¬ ("gdp" ∈ columns ∧ "lifeExp" ∈ columns)) as Hbad.
  { intros [Hgdp _]. revert Hgdp. by apply (bool_decide_unpack _). }
  split; [exact Hok|].
  split; [exact (proj1 (update_scatterplot_columns sample_world "country" "year") Hok)|].
  split; [exact Hneg|].
  split; [exact (proj1 (proj2 (update_scatterplot_columns negative_pop_world
                                 "lifeExp" "gdpPercap")) Hneg)|].
  split; [exact Hbad|].
  exact (proj2 (proj2 (update_scatterplot_columns sample_world "gdp" "lifeExp")) Hbad).
Defined.

(** X5: the map callback returns a chart exactly when the selected
    variable names a column of the table; otherwise the plotting call
    raises a [ValueError] for that variable, whatever the year. *)
Theorem update_map_chart_variable (w : World) (yr : Z) (variable : string) :
  (variable ∈ columns →
     ∃ fig, update_map_chart yr variable w = (Ok fig, w)
            ∧ fig_rows fig = filter (λ r, year r = yr) (gapminder w))
  ∧ (variable ∉ columns →
     update_map_chart yr variable w = (Raise (ValueError variable), w)).
Proof.
  split.
  - intros Hv. eexists. split; [by apply update_map_chart_run|done].
  - intros Hv.
    destruct (check_columns_raise ["country"; variable; "country"])
      as (c & Hc & Hn & Hraise).
    { rewrite !Forall_cons. tauto. }
    assert (c = variable) as ->.
    { rewrite !elem_of_cons, elem_of_nil in Hc.
      destruct Hc as [->|[->|[->|[]]]]; try done;
        exfalso; apply Hn; apply columns_elems. }
    unfold update_map_chart, mbind, App_bind, read_gapminder, call.
    rewrite getitem_ok by apply columns_elems.
    unfold px.choropleth. by rewrite Hraise.
Qed.

Lemma update_map_chart_variable_witness :
  "continent" ∈ columns
  ∧ (∃ fig, update_map_chart 1952 "continent" sample_world = (Ok fig, sample_world)
            ∧ fig_rows fig = filter (λ r, year r = 1952%Z) (gapminder sample_world))
  ∧ ("gdp" ∉ columns)
  ∧ update_map_chart 1952 "gdp" sample_world
    = (Raise (ValueError "gdp"), sample_world).
Proof.
  assert ("continent" ∈ columns) as Hok by (by apply (bool_decide_unpack _)).
  assert ("gdp" ∉ columns) as Hbad by (by apply (bool_decide_unpack _)).
  split; [exact Hok|].
  split; [exact (proj1 (update_map_chart_variable sample_world 1952 "continent") Hok)|].
  split; [exact Hbad|].
  exact (proj2 (update_map_chart_variable sample_world 1952 "gdp") Hbad).
Defined.

(** X6: for a year that no record of the table carries, the map callback
    returns a choropleth over zero rows and raises nothing. *)
Theorem update_map_chart_absent_year (w : World) (yr : Z) (variable : string) :
  yr ∉ year_marks (gapminder w) → variable ∈ columns →
  update_map_chart yr variable w
  = (Ok (ChoroplethFig [] "country" "country names" variable "country"
           (variable +:+ " in " +:+ pretty yr) Plasma), w).
Proof.
  intros Hyr Hv. rewrite update_map_chart_run by done.
  rewrite filter_none; [done|].
  intros r Hr Heq. apply Hyr. unfold year_marks.
  apply elem_of_unique, list_elem_of_fmap. eauto.
Qed.

Lemma update_map_chart_absent_year_witness :
  (1977%Z ∉ year_marks (gapminder sample_world)) ∧ "lifeExp" ∈ columns
  ∧ update_map_chart 1977 "lifeExp" sample_world
    = (Ok (ChoroplethFig [] "country" "country names" "lifeExp" "country"
             "lifeExp in 1977" Plasma), sample_world).
Proof.
  assert (1977%Z ∉ year_marks (gapminder sample_world)) as Hy.
  { apply (bool_decide_unpack _). vm_compute. exact I. }
  assert ("lifeExp" ∈ columns) as Hv by (by apply (bool_decide_unpack _)).
  split; [exact Hy|]. split; [exact Hv|].
  exact (update_map_chart_absent_year sample_world 1977 "lifeExp" Hy Hv).
Defined.

(** ** The filtered charts partition the table *)

Lemma sum_list_fmap_plus {A} (f g : A → nat) (l : list A) :
  sum_list ((λ a, f a + g a) <$> l) = sum_list (f <$> l) + sum_list (g <$> l).
Proof. induction l as [|a l IH]; [done|]. cbn. rewrite IH. lia. Qed.

Lemma sum_list_indicator `{EqDecision K} (k : K) (ks : list K) :
  NoDup ks → k ∈ ks →
  sum_list ((λ k', if decide (k = k') then 1 else 0) <$> ks) = 1.
Proof.
  induction 1 as [|k0 ks Hk0 Hnd IH]; intros Hk; [by apply elem_of_nil in Hk|].
  rewrite fmap_cons. cbn [sum_list sum_list_with].
  destruct (decide (k = k0)) as [->|Hne].
  - rewrite (sum_list_fmap_same 0); [cbv [Datatypes.id]; lia|].
    apply Forall_forall. intros k' Hk'. by destruct (decide (k0 = k')) as [<-|].
  - apply elem_of_cons in Hk as [?|Hk]; [done|]. by rewrite IH.
Qed.

(** Filtering on each value of a key once counts every row once. *)
Lemma filter_partition_count `{EqDecision K} (f : Row → K) (ks : list K)
    (df : DataFrame) :
  NoDup ks → (∀ r, r ∈ df → f r ∈ ks) →
  sum_list ((λ k, length (filter (λ r, f r = k) df)) <$> ks) = length df.
Proof.
  intros Hnd. induction df as [|r df IH]; intros Hks.
  - rewrite (sum_list_fmap_same 0); [cbn; lia|]. by apply Forall_forall.
  - rewrite (list_fmap_ext _
      (λ k, (if decide (f r = k) then 1 else 0)
            + length (filter (λ r, f r = k) df)) ks).
    + rewrite sum_list_fmap_plus, sum_list_indicator, IH; [done|..].
      * intros r' Hr'. apply Hks. by right.
      * done.
      * apply Hks. left.
    + intros _ k _. rewrite filter_cons. by destruct (decide (f r = k)).
Qed.

(** X7: the maps of the years marked on the year slider partition the
    table: their row counts add up to the number of rows of the table. *)
Theorem update_map_chart_partition (w : World) (variable : string) :
  variable ∈ columns →
  sum_list ((λ yr, length (chart_rows (update_map_chart yr variable w).1))
              <$> year_marks (gapminder w))
  = length (gapminder w).
Proof.
  intros Hv.
  rewrite (list_fmap_ext _
    (λ yr, length (filter (λ r, year r = yr) (gapminder w))) _);
    [|intros _ yr _; by rewrite update_map_chart_run].
  apply filter_partition_count; [apply NoDup_unique|].
  intros r Hr. apply elem_of_unique, list_elem_of_fmap. eauto.
Qed.

Lemma update_map_chart_partition_witness :
  "pop" ∈ columns
  ∧ sum_list ((λ yr, length (chart_rows (update_map_chart yr "pop" sample_world).1))
                <$> year_marks (gapminder sample_world))
    = 6.
Proof.
  assert ("pop" ∈ columns) as Hv by (by apply (bool_decide_unpack _)).
  split; [exact Hv|]. exact (update_map_chart_partition sample_world "pop" Hv).
Defined.

(** X8: the trend charts of the countries offered by the country dropdown
    partition the table: their row counts add up to the number of rows of
    the table. *)
Theorem update_trend_chart_partition (w : World) :
  sum_list ((λ c, length (chart_rows (update_trend_chart c w).1))
              <$> country_options (gapminder w))
  = length (gapminder w).
Proof.
  rewrite (list_fmap_ext _
    (λ c, length (filter (λ r, country r = c) (gapminder w))) _);
    [|intros _ c _; by rewrite update_trend_chart_run].
  apply filter_partition_count; [apply NoDup_unique|].
  intros r Hr. apply elem_of_unique, list_elem_of_fmap. eauto.
Qed.

(** ** Gaps in the correlation matrix *)

(** Rows that lack a finite value in one of the two columns are skipped. *)
Lemma stats_masked (mat : list (list float)) (xi yi : nat) :
  Forall (λ row, is_finite (nth xi row nan) = false
                 ∨ is_finite (nth yi row nan) = false) mat →
  corr.stats mat xi yi = corr.acc0.
Proof.
  intros Hmat. unfold corr.stats. generalize corr.acc0.
  induction Hmat as [|row mat Hrow _ IH]; intros acc; [done|].
  cbn [foldl].
  assert (corr.observe acc (nth xi row nan) (nth yi row nan) = acc) as ->; [|done].
  unfold corr.observe. destruct Hrow as [-> | ->]; [done|]. by rewrite andb_false_r.
Qed.

(** X10: a field without a finite value among the records of the selected
    continent (every value missing or infinite) has not-a-number in its
    whole row and its whole column of the correlation matrix. *)
Theorem update_correlation_matrix_nan (w : World) (c : string) (i j : nat) :
  i < 3 → j < 3 →
  Forall (λ r, is_finite (nth i (numeric_row r) nan) = false)
    (filter (λ r, continent r = c) (gapminder w)) →
  ∃ m,
    update_correlation_matrix c w
    = (Ok (ImshowFig (mkCorrFrame numeric_fields m) true
             (dict_of [("color", "Correlation")])
             ("Correlation Matrix for " +:+ c)), w)
    ∧ entry m i j = Some nan
    ∧ entry m j i = Some nan.
Proof.
  intros Hi Hj Hgap. eexists. split; [apply update_correlation_matrix_run|].
  set (mat := numeric_row <$> filter (λ r, continent r = c) (gapminder w)).
  assert (Forall (λ row, is_finite (nth i row nan) = false) mat) as Hmat.
  { unfold mat. by rewrite Forall_fmap. }
  assert (entry (corr.nancorr 3 mat 1) i j = Some nan) as Hij.
  { rewrite nancorr_entry by done. rewrite stats_masked; [done|].
    eapply Forall_impl; [exact Hmat|]. intros row Hrow.
    cbn beta.
    destruct (Nat.max_spec i j) as [[? ->]|[? ->]];
      destruct (Nat.min_spec i j) as [[? ->]|[? ->]];
      first [by left | by right | lia]. }
  split; [done|]. by rewrite nancorr_symmetric.
Qed.

Lemma update_correlation_matrix_nan_witness :
  1 < 3 ∧ 2 < 3
  ∧ Forall (λ r, is_finite (nth 1 (numeric_row r) nan) = false)
      (filter (λ r, continent r = "Africa") (gapminder missing_world))
  ∧ ∃ m,
      update_correlation_matrix "Africa" missing_world
      = (Ok (ImshowFig (mkCorrFrame numeric_fields m) true
               (dict_of [("color", "Correlation")])
               "Correlation Matrix for Africa"), missing_world)
      ∧ entry m 1 2 = Some nan
      ∧ entry m 2 1 = Some nan.
Proof.
  assert (Forall (λ r, is_finite (nth 1 (numeric_row r) nan) = false)
            (filter (λ r, continent r = "Africa") (gapminder missing_world))) as H.
  { vm_compute. repeat constructor. }
  split; [lia|]. split; [lia|]. split; [exact H|].
  exact (update_correlation_matrix_nan missing_world "Africa" 1 2
           ltac:(lia) ltac:(lia) H).
Defined.

(** The African rows of that table: life expectancy is missing, and the
    other two fields correlate. *)
Example update_correlation_matrix_missing :
  (update_correlation_matrix "Africa" missing_world).1
  = Ok (ImshowFig
          (mkCorrFrame ["gdpPercap"; "lifeExp"; "pop"]
             [[1; nan; 1]; [nan; nan; nan]; [1; nan; 1]]%float)
          true [("color", "Correlation")] "Correlation Matrix for Africa").
Proof. vm_compute. reflexivity. Qed.

(** ** Independent outputs *)

(** X12: the result the server records for a call is the result of that
    call alone on the initial state: a callback that raised, or any other
    earlier call, changes no later output. *)
Theorem serve_results_pointwise (calls : list Call) (w : World) :
  (serve calls w).1 = (λ c, (dispatch c w).1) <$> calls.
Proof.
  induction calls as [|c calls IH]; [done|].
  cbn [serve]. pose proof (proj1 (dispatch_pure c) w) as Hc.
  destruct (dispatch c w) as [r w'] eqn:Hd. cbn in Hc. subst w'.
  destruct (serve calls w) as [rs w''] eqn:Hs. cbn in IH. subst rs.
  cbn. by rewrite Hd.
Qed.

(** ** The bounds of the year slider *)

Lemma foldl_min_spec (v : Z) (s : list Z) :
  foldl Z.min v s ∈ v :: s ∧ ∀ y, y ∈ v :: s → (foldl Z.min v s ≤ y)%Z.
Proof.
  revert v. induction s as [|x s IH]; intros v.
  - cbn. split; [left|]. intros y Hy. apply list_elem_of_singleton in Hy. lia.
  - cbn [foldl]. destruct (IH (Z.min v x)) as [Hin Hle]. split.
    + apply elem_of_cons in Hin as [->|Hin].
      * destruct (Z.min_spec v x) as [[_ ->]|[_ ->]]; [left | right; left].
      * by do 2 right.
    + intros y Hy. rewrite !elem_of_cons in Hy.
      pose proof (Hle (Z.min v x) ltac:(left)) as Hm.
      destruct Hy as [->|[->|Hy]]; [lia | lia |]. apply Hle. by right.
Qed.

Lemma foldl_max_spec (v : Z) (s : list Z) :
  foldl Z.max v s ∈ v :: s ∧ ∀ y, y ∈ v :: s → (y ≤ foldl Z.max v s)%Z.
Proof.
  revert v. induction s as [|x s IH]; intros v.
  - cbn. split; [left|]. intros y Hy. apply list_elem_of_singleton in Hy. lia.
  - cbn [foldl]. destruct (IH (Z.max v x)) as [Hin Hle]. split.
    + apply elem_of_cons in Hin as [->|Hin].
      * destruct (Z.max_spec v x) as [[_ ->]|[_ ->]]; [right; left | left].
      * by do 2 right.
    + intros y Hy. rewrite !elem_of_cons in Hy.
      pose proof (Hle (Z.max v x) ltac:(left)) as Hm.
      destruct Hy as [->|[->|Hy]]; [lia | lia |]. apply Hle. by right.
Qed.

(** X13: for a table with at least one row the layout gives the year
    slider the smallest and the largest year of the table as bounds: both
    are marked years and every marked year lies between them.  For an
    empty table both conversions raise. *)
Theorem year_slider_bounds (df : DataFrame) :
  (df ≠ [] →
     ∃ lo hi,
       year_slider_min df = Ok lo ∧ year_slider_max df = Ok hi
       ∧ lo ∈ year_marks df ∧ hi ∈ year_marks df
       ∧ ∀ y, y ∈ year_marks df → (lo ≤ y ≤ hi)%Z)
  ∧ (df = [] →
     ∃ msg, year_slider_min df = Raise (ValueError msg)
            ∧ year_slider_max df = Raise (ValueError msg)).
Proof.
  split.
  - intros Hne. destruct df as [|r df]; [done|].
    unfold year_slider_min, year_slider_max, year_marks.
    cbn [fmap list_fmap series_min series_max py_int].
    destruct (foldl_min_spec (year r) (year <$> df)) as [Hlo_in Hlo].
    destruct (foldl_max_spec (year r) (year <$> df)) as [Hhi_in Hhi].
    eexists _, _. split; [done|]. split; [done|].
    split; [by apply elem_of_unique|]. split; [by apply elem_of_unique|].
    intros y Hy. apply (proj1 (elem_of_unique _ _)) in Hy.
    split; [apply Hlo, Hy | apply Hhi, Hy].
  - intros ->. eexists. split; reflexivity.
Qed.

Lemma year_slider_bounds_witness :
  gapminder sample_world ≠ []
  ∧ year_slider_min (gapminder sample_world) = Ok 1952%Z
  ∧ year_slider_max (gapminder sample_world) = Ok 1957%Z
  ∧ ∀ y, y ∈ year_marks (gapminder sample_world) → (1952 ≤ y ≤ 1957)%Z.
Proof.
  assert (gapminder sample_world ≠ []) as Hne by done.
  destruct (proj1 (year_slider_bounds (gapminder sample_world)) Hne)
    as (lo & hi & Hlo & Hhi & _ & _ & Hall).
  injection Hlo as <-. injection Hhi as <-.
  split; [exact Hne|]. split; [reflexivity|]. split; [reflexivity|]. exact Hall.
Defined.
